(** * bragginrights.py: a shallow embedding of the lineup builder

    The Streamlit script [src/bragginrights.py] is modelled as pure functions
    over explicit state: the leaderboard file is a value passed in and out,
    Streamlit's [session_state] is an association list threaded through one
    page render, and every widget (multiselects, selectboxes, buttons) is an
    input of the render.  Python dicts are association lists that keep
    insertion order, as Python's do.  Exceptions are the [Exc] type. *)

From Stdlib Require Import String Ascii List ZArith QArith Qabs Bool Lia Sorted Permutation.
Import ListNotations.

Open Scope list_scope.

(* ------------------------------------------------------------------ *)
(** ** Python dicts as insertion-ordered association lists *)

Section Dict.
Context {A : Type}.

(** [d.get(k)] *)
Fixpoint dict_get (d : list (string * A)) (k : string) : option A :=
  match d with
  | [] => None
  | (k', v) :: d' => if String.eqb k k' then Some v else dict_get d' k
  end.

(** [d[k] = v]: an existing key keeps its place, a new key goes last. *)
Fixpoint dict_set (d : list (string * A)) (k : string) (v : A)
  : list (string * A) :=
  match d with
  | [] => [(k, v)]
  | (k', v') :: d' =>
      if String.eqb k k' then (k', v) :: d' else (k', v') :: dict_set d' k v
  end.

(** [del d[k]] (only reached for keys that are present). *)
Fixpoint dict_del (d : list (string * A)) (k : string) : list (string * A) :=
  match d with
  | [] => []
  | (k', v') :: d' => if String.eqb k k' then d' else (k', v') :: dict_del d' k
  end.

Definition dict_mem (d : list (string * A)) (k : string) : bool :=
  match dict_get d k with Some _ => true | None => false end.

(** [d.values()] *)
Definition dict_values (d : list (string * A)) : list A := map snd d.

Lemma dict_get_set_eq d k v : dict_get (dict_set d k v) k = Some v.
Proof.
  induction d as [|[k' v'] d IH]; simpl.
  - rewrite String.eqb_refl. reflexivity.
  - destruct (String.eqb k k') eqn:E; simpl.
    + rewrite E. reflexivity.
    + rewrite E. exact IH.
Qed.

Lemma dict_get_set_neq d k k2 v :
  k2 <> k -> dict_get (dict_set d k v) k2 = dict_get d k2.
Proof.
  intros Hne. induction d as [|[k' v'] d IH]; simpl.
  - destruct (String.eqb k2 k) eqn:E; [apply String.eqb_eq in E; congruence|].
    reflexivity.
  - destruct (String.eqb k k') eqn:E; simpl.
    + apply String.eqb_eq in E. subst k'.
      destruct (String.eqb k2 k) eqn:E2; [apply String.eqb_eq in E2; congruence|].
      reflexivity.
    + destruct (String.eqb k2 k'); [reflexivity | exact IH].
Qed.

End Dict.

(* ------------------------------------------------------------------ *)
(** ** Exceptions and the error monad *)

Inductive Exc : Type :=
| KeyError (keys : list string)   (** missing dict key or DataFrame column *)
| TypeError                       (** an operation on values of the wrong type *)
| AttributeError                  (** a method the value does not have *)
| IndexError.                     (** [.iloc[0]] of an empty frame *)

Definition Result (A : Type) : Type := (Exc + A)%type.

Definition ret {A} (a : A) : Result A := inr a.
Definition raise {A} (e : Exc) : Result A := inl e.
Definition bind {A B} (m : Result A) (k : A -> Result B) : Result B :=
  match m with inl e => inl e | inr a => k a end.

Notation "x <- m ;; k" := (bind m (fun x => k))
  (at level 61, m at next level, right associativity).

Fixpoint mapM {A B} (f : A -> Result B) (l : list A) : Result (list B) :=
  match l with
  | [] => ret []
  | a :: l' => b <- f a ;; bs <- mapM f l' ;; ret (b :: bs)
  end.

(* ------------------------------------------------------------------ *)
(** ** Python string helpers *)

Local Open Scope string_scope.

(** Characters of [str.isspace()] in the ASCII range. *)
Definition is_py_space (c : ascii) : bool :=
  let n := nat_of_ascii c in
  (Nat.leb 9 n && Nat.leb n 13) || (Nat.leb 28 n && Nat.leb n 32).

Fixpoint lstrip (s : string) : string :=
  match s with
  | EmptyString => EmptyString
  | String c s' => if is_py_space c then lstrip s' else s
  end.

Definition rev_string (s : string) : string :=
  string_of_list_ascii (rev (list_ascii_of_string s)).

(** [s.strip()] *)
Definition strip (s : string) : string := rev_string (lstrip (rev_string (lstrip s))).

Definition lower_char (c : ascii) : ascii :=
  let n := nat_of_ascii c in
  if Nat.leb 65 n && Nat.leb n 90 then ascii_of_nat (n + 32) else c.

(** [s.lower()] (ASCII letters) *)
Fixpoint lower (s : string) : string :=
  match s with
  | EmptyString => EmptyString
  | String c s' => String (lower_char c) (lower s')
  end.

(** Python's [p in s] for two strings: [p] is a substring of [s]. *)
Fixpoint str_contains (s p : string) : bool :=
  String.prefix p s ||
  match s with
  | EmptyString => false
  | String _ s' => str_contains s' p
  end.

(** [s.split(sep)[0]]: the text before the first [sep]. *)
Fixpoint split_first (sep s : string) : string :=
  if String.prefix sep s then EmptyString
  else match s with
       | EmptyString => EmptyString
       | String c s' => String c (split_first sep s')
       end.

Fixpoint str_mem (x : string) (l : list string) : bool :=
  match l with [] => false | y :: l' => String.eqb x y || str_mem x l' end.

(** Decimal rendering of integers, as [str(int)] and f-strings print them. *)
Definition digit (n : Z) : ascii := ascii_of_nat (48 + Z.to_nat n).

Fixpoint digits_pos (fuel : nat) (n : Z) (acc : string) : string :=
  match fuel with
  | O => acc
  | S fuel' =>
      let acc' := String (digit (n mod 10)) acc in
      if (n <? 10)%Z then acc' else digits_pos fuel' (n / 10)%Z acc'
  end.

Definition show_Z (z : Z) : string :=
  match z with
  | Z0 => "0"
  | Zpos p => digits_pos (Pos.size_nat p) (Zpos p) ""
  | Zneg p => "-" ++ digits_pos (Pos.size_nat p) (Zpos p) ""
  end.

(** [repr] of the float [h / 100] that [round(2)] leaves: the integer part,
    a point, and the hundredths without trailing zeros (at least one digit). *)
Definition show_hundredths (h : Z) : string :=
  let a := Z.abs h in
  let sign := if (h <? 0)%Z then "-" else "" in
  let ip := (a / 100)%Z in
  let d1 := ((a mod 100) / 10)%Z in
  let d2 := (a mod 10)%Z in
  sign ++ show_Z ip ++ "." ++
  (if (d2 =? 0)%Z then String (digit d1) "" else String (digit d1) (String (digit d2) "")).

(* ------------------------------------------------------------------ *)
(** ** The weekly player pool: [load_csv] *)

(** A float64 value: finite (its exact binary value), infinite, or NaN. *)
Inductive Flt : Type :=
| Fin (q : Q)
| Inf (neg : bool)
| NaN.

(** A cell of the DataFrame that [pd.read_csv] parses: text, an integer of
    an int64 column, or a float (a missing cell of a numeric or text column
    is NaN). *)
Inductive Cell : Type :=
| CStr (s : string)
| CInt (z : Z)
| CFloat (f : Flt).

(** The frame as [pd.read_csv] returns it: header row and data rows. *)
Record RawTable : Type := mkRawTable {
  raw_columns : list string;
  raw_rows : list (list Cell)
}.

(** *** Binary64 arithmetic *)

(** [N / D] rounded to an integer, ties to even ([D > 0]). *)
Definition round_half_even (N D : Z) : Z :=
  let fl := (N / D)%Z in
  let r := (N - fl * D)%Z in
  match Z.compare (2 * r) D with
  | Lt => fl
  | Gt => (fl + 1)%Z
  | Eq => if Z.even fl then fl else (fl + 1)%Z
  end.

(** [2^k <= a / d], for [a, d > 0]. *)
Definition ge_pow2 (a d k : Z) : bool :=
  if (0 <=? k)%Z then (d * 2 ^ k <=? a)%Z else (d <=? a * 2 ^ (- k))%Z.

(** [floor (log2 (a / d))], for [a, d > 0]. *)
Definition flog2 (a d : Z) : Z :=
  let k := (Z.log2 a - Z.log2 d)%Z in
  if ge_pow2 a d k then k else (k - 1)%Z.

(** [z * 2^e] as a rational. *)
Definition scale2 (z e : Z) : Q :=
  if (0 <=? e)%Z then inject_Z (z * 2 ^ e) else z # Z.to_pos (2 ^ (- e)).

(** The binary64 value nearest to [q], ties to even, with subnormals, and
    infinite from [2^1024 - 2^970] on: the result of a float operation
    whose exact result is [q]. *)
Definition dbl (q : Q) : Flt :=
  let n := Qnum q in
  let d := Zpos (Qden q) in
  if (n =? 0)%Z then Fin 0 else
  let a := Z.abs n in
  let e := Z.max (-1074) (flog2 a d - 52) in
  let m := if (0 <=? e)%Z then round_half_even a (d * 2 ^ e)
           else round_half_even (a * 2 ^ (- e)) d in
  if (0 <=? e)%Z && (2 ^ 1024 <=? m * 2 ^ e)%Z then Inf (n <? 0)%Z
  else Fin (scale2 (Z.sgn n * m) e).

(** [np.rint] of a finite float: the nearest integer, ties to even. *)
Definition rint (q : Q) : Z := round_half_even (Qnum q) (Zpos (Qden q)).

(** *** The loaded frame *)

(** The fppg column after [.round(2)]: [FHund h] is the float [h / 100]
    that [np.rint(x * 100) / 100] gives for a finite [x]; a value that the
    rounding keeps (an int64 column, NaN, infinity) stays a cell. *)
Inductive Fppg : Type :=
| FHund (h : Z)
| FCell (c : Cell).

(** A row of [df[["name", "position", "team", "opponent", "salary",
    "fppg"]]]. *)
Record Row : Type := mkRow {
  r_name : Cell;
  r_position : Cell;
  r_team : Cell;
  r_opponent : Cell;
  r_salary : Cell;
  r_fppg : Fppg
}.

(** [df.columns = [c.strip().lower() for c in df.columns]] *)
Definition norm_header (c : string) : string := lower (strip c).

Fixpoint index_of (x : string) (l : list string) : option nat :=
  match l with
  | [] => None
  | y :: l' => if String.eqb x y then Some O
               else option_map S (index_of x l')
  end.

(** Cell [i] of a row; [read_csv] fills the missing cells of a short row
    with NaN. *)
Definition cell_at (row : list Cell) (i : nat) : Cell :=
  match nth_error row i with
  | Some x => x
  | None => CFloat NaN
  end.

(** [row[c]] in a frame whose (normalised) header is [cols]. *)
Definition cell_of (cols : list string) (row : list Cell) (c : string) : option Cell :=
  option_map (cell_at row) (index_of c cols).

(** [df[c]]: [KeyError] when no column is named [c]. *)
Definition column (cols : list string) (rows : list (list Cell)) (c : string)
  : Result (list Cell) :=
  match index_of c cols with
  | None => raise (KeyError [c])
  | Some i => ret (map (fun row => cell_at row i) rows)
  end.

Definition is_str_cell (x : Cell) : bool :=
  match x with CStr _ => true | _ => false end.

Definition is_int_cell (x : Cell) : bool :=
  match x with CInt _ => true | _ => false end.

(** The dtypes [read_csv] infers for a column. *)
Inductive DType : Type := DObject | DInt | DFloat.

(** Text ([object]) when a cell is text or the frame has no row, [int64]
    when every cell is an integer, [float64] otherwise. *)
Definition col_dtype (xs : list Cell) : DType :=
  match xs with
  | [] => DObject
  | _ => if existsb is_str_cell xs then DObject
         else if forallb is_int_cell xs then DInt else DFloat
  end.

(** [col + s] for a string [s]: element-wise on an [object] column, where a
    NaN stays NaN (pandas retries the operation on the non-missing cells);
    a numeric column raises [TypeError]. *)
Definition add_str_cell (s : string) (x : Cell) : Result Cell :=
  match x with
  | CStr a => ret (CStr (a ++ s))
  | CFloat NaN => ret (CFloat NaN)
  | _ => raise TypeError
  end.

Definition col_add_str (xs : list Cell) (s : string) : Result (list Cell) :=
  match col_dtype xs with
  | DObject => mapM (add_str_cell s) xs
  | _ => raise TypeError
  end.

(** [left + right] for an [object] column [left]: a row where either side
    is missing gives NaN, two strings are concatenated, anything else
    raises [TypeError]. *)
Definition add_cells (x y : Cell) : Result Cell :=
  match x, y with
  | CFloat NaN, _ => ret (CFloat NaN)
  | _, CFloat NaN => ret (CFloat NaN)
  | CStr a, CStr b => ret (CStr (a ++ b))
  | _, _ => raise TypeError
  end.

Definition col_add (xs ys : list Cell) : Result (list Cell) :=
  mapM (fun xy => add_cells (fst xy) (snd xy)) (combine xs ys).

(** [.replace({"DEF": "D"})] *)
Definition normalize_position (x : Cell) : Cell :=
  match x with
  | CStr p => if String.eqb p "DEF" then CStr "D" else x
  | _ => x
  end.

(** [np.round(x, 2)] on one float: [np.rint(x * 100) / 100]. *)
Definition round_float (x : Flt) : Fppg :=
  match x with
  | Fin v =>
      match dbl (100 * v) with
      | Fin y => FHund (rint y)
      | y => FCell (CFloat y)
      end
  | y => FCell (CFloat y)
  end.

(** [Series.round(2)]: an [object] column raises [TypeError] (pandas 2.2
    on), an [int64] column is returned as it is, a [float64] one is rounded
    cell by cell. *)
Definition round_col (xs : list Cell) : Result (list Fppg) :=
  match col_dtype xs with
  | DObject => raise TypeError
  | DInt => ret (map FCell xs)
  | DFloat => ret (map (fun x => match x with
                                 | CFloat f => round_float f
                                 | _ => FCell x
                                 end) xs)
  end.

Definition required_after_name : list string :=
  ["position"; "team"; "opponent"; "salary"; "fppg"].

Fixpoint zip_rows (ns ps ts os ss : list Cell) (fs : list Fppg) : list Row :=
  match ns, ps, ts, os, ss, fs with
  | n :: ns', p :: ps', t :: ts', o :: os', s :: ss', f :: fs' =>
      mkRow n p t o s f :: zip_rows ns' ps' ts' os' ss' fs'
  | _, _, _, _, _, _ => []
  end.

(** [load_csv], statement by statement: [df["first name"] + " "] is
    evaluated before [df["last name"]] is looked up, and the column
    selection on line 59 raises [KeyError] with every missing column. *)
Definition load_csv (t : RawTable) : Result (list Row) :=
  let cols := map norm_header (raw_columns t) in
  let rows := raw_rows t in
  firsts <- column cols rows "first name" ;;
  left <- col_add_str firsts " " ;;
  lasts <- column cols rows "last name" ;;
  names <- col_add left lasts ;;
  match filter (fun c => negb (str_mem c cols)) required_after_name with
  | (_ :: _) as missing => raise (KeyError missing)
  | [] =>
      ps <- column cols rows "position" ;;
      ts <- column cols rows "team" ;;
      os <- column cols rows "opponent" ;;
      ss <- column cols rows "salary" ;;
      xs <- column cols rows "fppg" ;;
      fs <- round_col xs ;;
      ret (zip_rows names (map normalize_position ps) ts os ss fs)
  end.

Definition required_columns : list string :=
  ["first name"; "last name"] ++ required_after_name.

(** *** The rows the page works on *)

(** A row of the frame of the kind the rest of the model follows: text
    name, position, team and opponent, an integer salary, and fppg a
    rounded float, kept as its number of hundredths [h]: the float
    [h / 100] that [round(2)] leaves. *)
Record Player : Type := mkPlayer {
  name : string;
  position : string;
  team : string;
  opponent : string;
  salary : Z;
  fppg : Z
}.

Definition player_of_row (r : Row) : option Player :=
  match r_name r, r_position r, r_team r, r_opponent r, r_salary r, r_fppg r with
  | CStr n, CStr p, CStr t, CStr o, CInt s, FHund h => Some (mkPlayer n p t o s h)
  | _, _, _, _, _, _ => None
  end.

Fixpoint players_of (rows : list Row) : option (list Player) :=
  match rows with
  | [] => Some []
  | r :: rows' =>
      match player_of_row r, players_of rows' with
      | Some p, Some ps => Some (p :: ps)
      | _, _ => None
      end
  end.

(* ------------------------------------------------------------------ *)
(** ** Configuration *)

Definition SALARY_CAP : Z := 60000.

Definition LINEUP_SLOTS : list (string * nat) :=
  [("QB", 1%nat); ("RB", 2%nat); ("WR", 3%nat); ("TE", 1%nat);
   ("FLEX", 1%nat); ("D", 1%nat)].

(** [f"{pos}{'' if count==1 else i+1}"] *)
Definition slot_label (pos : string) (count i : nat) : string :=
  pos ++ (if Nat.eqb count 1 then "" else show_Z (Z.of_nat (S i))).

(** The slots in the order of the two nested [for] loops: (label, pos). *)
Definition slots : list (string * string) :=
  flat_map (fun '(pos, count) =>
              map (fun i => (slot_label pos count i, pos)) (seq 0 count))
           LINEUP_SLOTS.

(* ------------------------------------------------------------------ *)
(** ** Sidebar filters *)

Record Filters : Type := mkFilters {
  f_positions : list string;
  f_teams : list string;
  f_opponents : list string;
  f_salary_range : Z * Z   (** applied to the displayed table only *)
}.

(** [if xs: pool = pool[pool[col].isin(xs)]] *)
Definition filter_isin (sel : Player -> string) (xs : list string)
    (pool : list Player) : list Player :=
  match xs with
  | [] => pool
  | _ => filter (fun p => str_mem (sel p) xs) pool
  end.

(** The "Available Players" table ([filtered_df]). *)
Definition filtered_df (df : list Player) (f : Filters) : list Player :=
  let pool := filter_isin position (f_positions f) df in
  let pool := filter_isin team (f_teams f) pool in
  let pool := filter_isin opponent (f_opponents f) pool in
  filter (fun p => (fst (f_salary_range f) <=? salary p)%Z &&
                   (salary p <=? snd (f_salary_range f))%Z) pool.

(* ------------------------------------------------------------------ *)
(** ** Build Your Lineup: the slot-options loop *)

(** A lineup dict: slot label to the player row stored for it. *)
Definition Lineup : Type := list (string * Player).

(** [f"{r['name']} | ${r['salary']} | {r['fppg']} FPPG"] *)
Definition fmt_option (p : Player) : string :=
  name p ++ " | $" ++ show_Z (salary p) ++ " | " ++ show_hundredths (fppg p)
  ++ " FPPG".

(** [df[df["position"].isin(["RB","WR","TE"])] if pos=="FLEX" else
    df[df["position"]==pos]], then the three [isin] filters. *)
Definition slot_pool (df : list Player) (f : Filters) (pos : string) : list Player :=
  let pool := if String.eqb pos "FLEX"
              then filter (fun p => str_mem (position p) ["RB"; "WR"; "TE"]) df
              else filter (fun p => String.eqb (position p) pos) df in
  let pool := filter_isin position (f_positions f) pool in
  let pool := filter_isin team (f_teams f) pool in
  filter_isin opponent (f_opponents f) pool.

(** [p in lineup.get(label, {}).get("name", [])]: membership in the empty
    list when the slot is empty, Python's substring test on the occupant's
    name string otherwise. *)
Definition in_current (lineup : Lineup) (label : string) (p : string) : bool :=
  match dict_get lineup label with
  | Some occ => str_contains (name occ) p
  | None => false
  end.

(** [pool[~pool["name"].isin([p for p in used_players if p not in ...])]] *)
Definition exclude_used (lineup : Lineup) (label : string) (used : list string)
    (pool : list Player) : list Player :=
  let excl := filter (fun p => negb (in_current lineup label p)) used in
  filter (fun r => negb (str_mem (name r) excl)) pool.

Definition prior_choice_str (lineup : Lineup) (label : string) : string :=
  match dict_get lineup label with
  | Some p => fmt_option p
  | None => "--"
  end.

(** The options of the [Select {label}] selectbox. *)
Definition slot_options (df : list Player) (f : Filters) (used : list string)
    (lineup : Lineup) (label pos : string) : list string :=
  let pool := exclude_used lineup label used (slot_pool df f pos) in
  let options := "--" :: map fmt_option pool in
  let prior := prior_choice_str lineup label in
  if str_mem prior options then options else app options [prior].

(** A selectbox widget: given its label, its options and the default index,
    the value Streamlit returns for it in this run. *)
Definition Widget : Type := string -> list string -> nat -> string.

(** [df[df["name"]==name].iloc[0].to_dict()] *)
Definition first_row (df : list Player) (n : string) : Result Player :=
  match find (fun p => String.eqb (name p) n) df with
  | Some p => ret p
  | None => raise IndexError
  end.

(** One iteration of the inner loop body (lines 218-252); it also reports
    the options shown for the slot. *)
Definition slot_step (df : list Player) (f : Filters) (w : Widget)
    (label pos : string) (lineup : Lineup) (used : list string)
  : Result (Lineup * list string * list string) :=
  let options := slot_options df f used lineup label pos in
  let prior := prior_choice_str lineup label in
  let idx := match index_of prior options with Some i => i | None => O end in
  let choice := w label options idx in
  if negb (String.eqb choice "--") then
    let n := split_first " | " choice in
    row <- first_row df n ;;
    ret (dict_set lineup label row,
         if str_mem n used then used else app used [n],
         options)
  else if dict_mem lineup label then ret (dict_del lineup label, used, options)
  else ret (lineup, used, options).

Fixpoint build_loop (df : list Player) (f : Filters) (w : Widget)
    (sl : list (string * string)) (lineup : Lineup) (used : list string)
  : Result (Lineup * list string * list (string * list string)) :=
  match sl with
  | [] => ret (lineup, used, [])
  | (label, pos) :: sl' =>
      r <- slot_step df f w label pos lineup used ;;
      let '(lineup1, used1, opts) := r in
      r' <- build_loop df f w sl' lineup1 used1 ;;
      let '(lineup2, used2, log) := r' in
      ret (lineup2, used2, (label, opts) :: log)
  end.

(** [used_players = [p["name"] for p in lineup.values()] if lineup else []] *)
Definition initial_used (lineup : Lineup) : list string :=
  map name (dict_values lineup).

(* ------------------------------------------------------------------ *)
(** ** Persistence: the leaderboard file *)

(** [leaderboard.json]: week key to manager to lineup dict. *)
Definition Leaderboard : Type := list (string * list (string * Lineup)).

(** The file: [None] when it does not exist. *)
Definition LeaderboardFile : Type := option Leaderboard.

(** [load_leaderboard()] *)
Definition load_leaderboard (file : LeaderboardFile) : Leaderboard :=
  match file with Some lb => lb | None => [] end.

(** [save_lineup(username, lineup_dict, week_key)]: read the file (or [{}]),
    [leaderboard.setdefault(week_key, {})[username] = lineup_dict], write. *)
Definition save_lineup (file : LeaderboardFile) (username : string)
    (lineup_dict : Lineup) (week_key : string) : LeaderboardFile :=
  let leaderboard := load_leaderboard file in
  let leaderboard :=
    if dict_mem leaderboard week_key then leaderboard
    else dict_set leaderboard week_key [] in
  let wk := match dict_get leaderboard week_key with Some w => w | None => [] end in
  Some (dict_set leaderboard week_key (dict_set wk username lineup_dict)).

(** [lookup[week][manager]] of a leaderboard, [None] when absent. *)
Definition recorded (lb : Leaderboard) (week manager : string) : option Lineup :=
  match dict_get lb week with
  | Some wk => dict_get wk manager
  | None => None
  end.

(* ------------------------------------------------------------------ *)
(** ** Display and Save / Reset *)

(** [pd.DataFrame.from_dict(lineup, orient="index")["salary"].sum()] *)
Definition total_salary (lineup : Lineup) : Z :=
  fold_right Z.add 0%Z (map salary (dict_values lineup)).

(** The one button click of this run (Streamlit reports at most one). *)
Inductive Click : Type := NoClick | ClickSave | ClickReset.

Definition Session : Type := list (string * Lineup).

Definition state_key (username week_key : string) : string :=
  "lineup_" ++ username ++ "_" ++ week_key.

(** Lines 255-276: returns the file and whether Reset was pressed. *)
Definition save_section (file : LeaderboardFile) (username week_key : string)
    (lineup : Lineup) (click : Click) : LeaderboardFile * bool :=
  match lineup with
  | [] => (file, false)
  | _ =>
      let total := total_salary lineup in
      let save_disabled := (total >? SALARY_CAP)%Z in
      match click with
      | ClickSave =>
          if save_disabled then (file, false)
          else (save_lineup file username lineup week_key, false)
      | ClickReset => (file, true)
      | NoClick => (file, false)
      end
  end.

(** Python truthiness of [submitted_lineup]: a non-empty dict. *)
Definition truthy_lineup (o : option Lineup) : bool :=
  match o with Some (_ :: _) => true | _ => false end.

(** Lines 203-276 of one run.  The session's lineup dict is the object the
    loop mutates, so the session afterwards holds the loop's lineup; Reset
    replaces it by [{}] ([st.experimental_rerun()] then ends the run). *)
Definition render_build (df : list Player) (file : LeaderboardFile)
    (session : Session) (username week_key : string) (f : Filters)
    (w : Widget) (click : Click) : Result (LeaderboardFile * Session) :=
  let leaderboard := load_leaderboard file in
  let sk := state_key username week_key in
  let session := if dict_mem session sk then session else dict_set session sk [] in
  let lineup := match dict_get session sk with Some l => l | None => [] end in
  let submitted_lineup :=
    dict_get (match dict_get leaderboard week_key with Some wk => wk | None => [] end)
             username in
  if truthy_lineup submitted_lineup then ret (file, session)
  else
    r <- build_loop df f w slots lineup (initial_used lineup) ;;
    let '(lineup', _, _) := r in
    let session := dict_set session sk lineup' in
    let '(file', reset) := save_section file username week_key lineup' click in
    ret (file', if reset then dict_set session sk [] else session).

(** The page from [df = load_csv(latest_csv)] to the Save / Reset buttons.
    [inr None]: the frame loaded but holds a row outside [Player] (a missing
    or non-text name, position, team or opponent, a salary that is not an
    integer, an fppg that is an integer or not finite); the model does not
    follow such a run past the load. *)
Definition render_page (raw : RawTable) (file : LeaderboardFile)
    (session : Session) (username week_key : string) (f : Filters)
    (w : Widget) (click : Click) : Result (option (LeaderboardFile * Session)) :=
  rows <- load_csv raw ;;
  match players_of rows with
  | Some df =>
      r <- render_build df file session username week_key f w click ;;
      ret (Some r)
  | None => ret None
  end.

(* ------------------------------------------------------------------ *)
(** ** Weekly leaderboard: [get_player_points] *)

Set Warnings "-register-all".

(** A decoded JSON value; objects are the dicts [json] builds.  A number
    is the value [json] reads: an [int], or the [float] a decimal parses to,
    by its exact value.  The non-finite floats [json] also accepts
    ([NaN], [Infinity]) are not represented. *)
Inductive Json : Type :=
| JNull
| JBool (b : bool)
| JNum (q : Q)
| JStr (s : string)
| JArr (xs : list Json)
| JObj (fields : list (string * Json)).

(** What [requests.get(url, timeout=5)] gives: an exception (connection
    error, timeout) or a response with its status and its body, [None]
    when the body is not JSON ([response.json()] raises). *)
Inductive Response : Type :=
| NetError
| HttpResp (status : Z) (body : option Json).

Definition Fetch : Type := string -> Response.

Definition Cache : Type := list (string * Json).

(** [response.raise_for_status()] raises for 4xx and 5xx. *)
Definition is_http_error (status : Z) : bool := (400 <=? status)%Z && (status <? 600)%Z.

(** The [try] block; the bare [except:] turns every exception into [0]. *)
Definition fetch_points (resp : Response) : Json :=
  match resp with
  | NetError => JNum 0
  | HttpResp status body =>
      if is_http_error status then JNum 0
      else match body with
           | Some (JObj fields) =>
               match dict_get fields "fantasy_points" with
               | Some v => v
               | None => JNum 0
               end
           | _ => JNum 0      (* not JSON, or [.get] on a non-dict *)
           end
  end.

Definition player_url (player_id : string) (season week : Z) : string :=
  "https://api.sleeper.app/v1/stats/nfl/player/" ++ player_id ++ "?season="
  ++ show_Z season ++ "&season_type=regular&week=" ++ show_Z week.

(** [get_player_points] keys its cache by this string. *)
Definition cache_key (player_id : string) (season week : Z) : string :=
  player_id ++ "_" ++ show_Z season ++ "_" ++ show_Z week.

(** [get_player_points(player_id, season, week)]; the cache file write is
    the returned cache. *)
Definition get_player_points (cache : Cache) (fetch : Fetch)
    (player_id : string) (season week : Z) : Json * Cache :=
  match dict_get cache (cache_key player_id season week) with
  | Some v => (v, cache)
  | None =>
      let points := fetch_points (fetch (player_url player_id season week)) in
      (points, dict_set cache (cache_key player_id season week) points)
  end.

(** Line 314-315: [player_id = mapping.get(player_name)];
    [get_player_points(...) if player_id else 0]. *)
Definition points_for (mapping : list (string * string)) (cache : Cache)
    (fetch : Fetch) (player_name : string) (season week : Z) : Json * Cache :=
  match dict_get mapping player_name with
  | Some pid =>
      if String.eqb pid "" then (JNum 0, cache)
      else get_player_points cache fetch pid season week
  | None => (JNum 0, cache)
  end.

(** [total_points += points] *)
Definition add_points (total : Q) (points : Json) : Result Q :=
  match points with
  | JNum q => ret (total + q)%Q
  | JBool b => ret (total + if b then 1 else 0)%Q
  | _ => raise TypeError
  end.

Definition SEASON_YEAR : Z := 2025.

(** Scores of one manager's lineup (lines 311-318): the cache written so
    far, which [get_player_points] has saved to [CACHE_FILE] before any
    later [total_points += points] can raise, and the per-slot points with
    the total. *)
Fixpoint score_lineup (mapping : list (string * string)) (fetch : Fetch)
    (week : Z) (lineup : Lineup) (cache : Cache) (total : Q)
  : Cache * Result (list (string * Json) * Q) :=
  match lineup with
  | [] => (cache, ret ([], total))
  | (slot, player) :: rest =>
      let '(points, cache1) := points_for mapping cache fetch (name player) SEASON_YEAR week in
      match add_points total points with
      | inl e => (cache1, inl e)
      | inr total1 =>
          let '(cache2, r) := score_lineup mapping fetch week rest cache1 total1 in
          (cache2, r' <- r ;; let '(scores, total2) := r' in
                   ret ((slot, points) :: scores, total2))
      end
  end.

(** The weekly leaderboard loop over [leaderboard[current_week_key]]: the
    saved cache, and the total of each manager. *)
Fixpoint weekly_scores (mapping : list (string * string)) (fetch : Fetch)
    (week : Z) (managers : list (string * Lineup)) (cache : Cache)
  : Cache * Result (list (string * Q)) :=
  match managers with
  | [] => (cache, ret [])
  | (manager, lineup_data) :: rest =>
      let '(cache1, r) := score_lineup mapping fetch week lineup_data cache 0%Q in
      match r with
      | inl e => (cache1, inl e)
      | inr (_, total) =>
          let '(cache2, r') := weekly_scores mapping fetch week rest cache1 in
          (cache2, totals <- r' ;; ret ((manager, total) :: totals))
      end
  end.

(** The completeness test of the spec ([isComplete]): every slot assigned. *)
Definition is_complete (lineup : Lineup) : bool :=
  forallb (fun '(label, _) => dict_mem lineup label) slots.

(** A lookup that fails in one of the ways [get_player_points] swallows:
    a requests exception, an error status (4xx, 5xx), a body that is not
    JSON, or JSON without a ["fantasy_points"] entry. *)
Definition is_lookup_failure (resp : Response) : bool :=
  match resp with
  | NetError => true
  | HttpResp status body =>
      is_http_error status ||
      match body with
      | Some (JObj fields) => negb (dict_mem fields "fantasy_points")
      | _ => true
      end
  end.

Definition numeric_json (j : Json) : Prop :=
  match j with JNum _ => True | _ => False end.

(** The fppg [.round(2)] leaves for a cell [x]: for a finite float [v],
    a number [h] of hundredths with [|h - 100 v| <= 1/2 + |100 v| / 2^53
    + 1 / 2^1075], the half of [rint] plus the rounding error of the float
    product [v * 100], or infinity when that product overflows, which needs
    [|100 v| >= 2^1023]; other values are kept. *)
Definition fppg_rounded (x : Cell) (f : Fppg) : Prop :=
  match x with
  | CFloat (Fin v) =>
      (exists h, f = FHund h /\
         (Qabs (inject_Z h - 100 * v) <=
            (1 # 2) + Qabs (100 * v) * (1 # Pos.pow 2 53) + (1 # Pos.pow 2 1075))%Q) \/
      (exists neg, f = FCell (CFloat (Inf neg)) /\ (inject_Z (2 ^ 1023) <= Qabs (100 * v))%Q)
  | CFloat y => f = FCell (CFloat y)
  | CInt z => f = FCell (CInt z)
  | CStr _ => False
  end.

(** What [load_csv] makes of one raw row. *)
Definition row_loaded_as (cols : list string) (row : list Cell) (r : Row) : Prop :=
  exists first last pos x,
    cell_of cols row "first name" = Some first /\
    cell_of cols row "last name" = Some last /\
    cell_of cols row "position" = Some pos /\
    cell_of cols row "fppg" = Some x /\
    r_name r = match first, last with
               | CStr a, CStr b => CStr (a ++ " " ++ b)
               | _, _ => CFloat NaN
               end /\
    r_position r = (if match pos with CStr p => String.eqb p "DEF" | _ => false end
                    then CStr "D" else pos) /\
    fppg_rounded x (r_fppg r).

(** Every first-name and last-name cell of the raw frame is text. *)
Definition names_text (raw : RawTable) : Prop :=
  forall row k i,
    In row (raw_rows raw) -> In k ["first name"; "last name"] ->
    index_of k (map norm_header (raw_columns raw)) = Some i ->
    is_str_cell (cell_at row i) = true.

(* ------------------------------------------------------------------ *)
(** ** Picking the current week: [load_latest_csv] *)

(** Insertion into a list sorted by Python's string order (code points). *)
Fixpoint insert_sorted (x : string) (l : list string) : list string :=
  match l with
  | [] => [x]
  | y :: l' => if String.leb x y then x :: l else y :: insert_sorted x l'
  end.

(** [sorted(paths)] *)
Definition py_sorted (l : list string) : list string :=
  fold_right insert_sorted [] l.

Definition is_digit (c : ascii) : bool :=
  Nat.leb 48 (nat_of_ascii c) && Nat.leb (nat_of_ascii c) 57.

(** [\d*], greedy: the leading digits. *)
Fixpoint take_digits (s : string) : string :=
  match s with
  | String c s' => if is_digit c then String c (take_digits s') else EmptyString
  | EmptyString => EmptyString
  end.

Fixpoint strip_prefix (p s : string) : option string :=
  match p, s with
  | EmptyString, _ => Some s
  | String a p', String b s' => if Ascii.eqb a b then strip_prefix p' s' else None
  | String _ _, EmptyString => None
  end.

(** [(\d{4})_week_(\d+)] matched at the start of [s]: both groups. *)
Definition match_week_at (s : string) : option (string * string) :=
  match s with
  | String a (String b (String c (String d rest))) =>
      if is_digit a && is_digit b && is_digit c && is_digit d then
        match strip_prefix "_week_" rest with
        | Some rest' =>
            match take_digits rest' with
            | EmptyString => None
            | w => Some (String a (String b (String c (String d EmptyString))), w)
            end
        | None => None
        end
      else None
  | _ => None
  end.

(** [re.search(r'(\d{4})_week_(\d+)', s)]: the leftmost match. *)
Fixpoint week_search (s : string) : option (string * string) :=
  match match_week_at s with
  | Some r => Some r
  | None => match s with
            | EmptyString => None
            | String _ s' => week_search s'
            end
  end.

(** [load_latest_csv()], given what [glob("salaries/*.csv")] lists. *)
Definition load_latest_csv (csv_paths : list string) : option string * string :=
  let csv_files := py_sorted csv_paths in
  match csv_files with
  | [] => (None, "unknown_week")
  | _ =>
      let latest := last csv_files "" in
      match week_search latest with
      | Some (year, week) => (Some latest, year ++ "_week_" ++ week)
      | None => (None, "unknown_week")
      end
  end.

(** [s.split(sep)[1]]: the text between the first and the second [sep];
    [IndexError] when [sep] does not occur. *)
Fixpoint split_second (sep s : string) : Result string :=
  match strip_prefix sep s with
  | Some rest => ret (split_first sep rest)
  | None => match s with
            | EmptyString => raise IndexError
            | String _ s' => split_second sep s'
            end
  end.

(** [int(s)] on a string of ASCII digits (the only strings it gets here);
    anything else is reported as an error. *)
Fixpoint digits_value (s : string) (acc : Z) : Result Z :=
  match s with
  | EmptyString => ret acc
  | String c s' =>
      if is_digit c then digits_value s' (acc * 10 + Z.of_nat (nat_of_ascii c - 48))%Z
      else raise TypeError
  end.

Definition py_int (s : string) : Result Z :=
  match s with
  | EmptyString => raise TypeError
  | _ => digits_value s 0
  end.

(** Line 281: [week_number = int(current_week_key.split("_week_")[1])] *)
Definition week_number (current_week_key : string) : Result Z :=
  w <- split_second "_week_" current_week_key ;; py_int w.

(* ------------------------------------------------------------------ *)
(** ** Season leaderboard *)

Definition MANAGERS : list string := ["-"; "Mariah"; "David"; "Amos"; "AJ"; "Danny"].

(** One manager's record in [season_leaderboard.json]. *)
Record SeasonRec : Type := mkSeasonRec {
  total_points : Q;
  weeks_1st : Z;
  weeks_2nd : Z;
  weeks_3rd : Z
}.

(** [load_season()]: the file, or zeros for every manager. *)
Definition load_season (file : option (list (string * SeasonRec)))
  : list (string * SeasonRec) :=
  match file with
  | Some s => s
  | None => map (fun m => (m, mkSeasonRec 0 0 0 0)) MANAGERS
  end.

(** [weeks_1st*10 + weeks_2nd*6 + weeks_3rd*3] *)
Definition placement_points (r : SeasonRec) : Z :=
  (weeks_1st r * 10 + weeks_2nd r * 6 + weeks_3rd r * 3)%Z.

(** Row [a] goes no later than row [b] in
    [sort_values(by=["Placement Points","total_points"], ascending=False)]. *)
Definition season_ge (a b : string * SeasonRec) : bool :=
  let pa := placement_points (snd a) in
  let pb := placement_points (snd b) in
  (pb <? pa)%Z || ((pa =? pb)%Z && Qle_bool (total_points (snd b)) (total_points (snd a))).

Fixpoint insert_season (x : string * SeasonRec) (l : list (string * SeasonRec))
  : list (string * SeasonRec) :=
  match l with
  | [] => [x]
  | y :: l' => if season_ge x y then x :: l else y :: insert_season x l'
  end.

(** The season table in display order (rows of equal keys keep file order). *)
Definition season_table (season : list (string * SeasonRec))
  : list (string * SeasonRec) :=
  fold_right insert_season [] season.

(** What the admin sees after a season upload. *)
Inductive UploadMsg : Type :=
| UWarning (missing : list string)
| USuccess
| UTop3 (top : list (string * Json))
| UTop3Unsettled   (** the top-3 list or "Failed to load JSON", not modelled *)
| UFailed.

(** [m in uploaded_json] for a decoded JSON value. *)
Definition py_in_json (m : string) (j : Json) : Result bool :=
  match j with
  | JObj fields => ret (dict_mem fields m)
  | JArr xs => ret (existsb (fun x => match x with JStr s => String.eqb s m | _ => false end) xs)
  | JStr s => ret (str_contains s m)
  | _ => raise TypeError
  end.

Fixpoint missing_managers (j : Json) (ms : list string) : Result (list string) :=
  match ms with
  | [] => ret []
  | m :: ms' =>
      b <- py_in_json m j ;;
      rest <- missing_managers j ms' ;;
      ret (if b then rest else m :: rest)
  end.

(** [x[1]['total_points']]: subscripting a value that is not a dict
    raises [TypeError], a dict without the key [KeyError]. *)
Definition total_key (stats : Json) : Result Json :=
  match stats with
  | JObj fields =>
      match dict_get fields "total_points" with
      | Some v => ret v
      | None => raise (KeyError ["total_points"])
      end
  | _ => raise TypeError
  end.

(** What Python's [<] does with two sort keys: numbers (booleans included)
    compare with numbers, strings with strings by code point, lists with
    lists element by element; [None] and dicts compare with nothing, and
    values of two different kinds neither. *)
Inductive KeyKind : Type := KNum | KStr | KList | KNone.

Definition key_kind (j : Json) : KeyKind :=
  match j with
  | JNum _ | JBool _ => KNum
  | JStr _ => KStr
  | JArr _ => KList
  | JNull | JObj _ => KNone
  end.

Definition KeyKind_eqb (a b : KeyKind) : bool :=
  match a, b with
  | KNum, KNum | KStr, KStr | KList, KList | KNone, KNone => true
  | _, _ => false
  end.

Definition num_key (j : Json) : Q :=
  match j with
  | JNum q => q
  | JBool b => if b then 1 else 0
  | _ => 0
  end.

Definition str_key (j : Json) : string :=
  match j with JStr s => s | _ => "" end.

(** Insertion of an earlier item into the sorted later ones, before the
    first item whose key is not greater: the stable order of
    [sorted(..., reverse=True)]. *)
Fixpoint insert_desc (le : Json -> Json -> bool) (x : string * Json)
    (l : list (string * Json)) : list (string * Json) :=
  match l with
  | [] => [x]
  | y :: l' => if le (snd y) (snd x) then x :: l else y :: insert_desc le x l'
  end.

(** [sorted(items, key=..., reverse=True)] on items already paired with
    their keys.  A sort of two items or more compares every item with
    another one, and the first item of a second kind with one of the first
    kind, so a key that compares with nothing or two kinds of keys raise
    [TypeError].  [None]: lists as keys, whose comparisons may or may not
    raise depending on which pairs the sort compares, a case the model
    leaves open. *)
Definition sort_desc (keyed : list (string * Json))
  : option (Result (list (string * Json))) :=
  match keyed with
  | [] | [_] => Some (ret keyed)
  | (_, k0) :: _ =>
      let kind := key_kind k0 in
      if negb (forallb (fun it => KeyKind_eqb (key_kind (snd it)) kind) keyed)
      then Some (raise TypeError)
      else match kind with
           | KNum => Some (ret (fold_right
                      (insert_desc (fun a b => Qle_bool (num_key a) (num_key b))) [] keyed))
           | KStr => Some (ret (fold_right
                      (insert_desc (fun a b => String.leb (str_key a) (str_key b))) [] keyed))
           | KNone => Some (raise TypeError)
           | KList => None
           end
  end.

(** [sorted(uploaded_json.items(), key=lambda x: x[1]['total_points'],
    reverse=True)[:3]]: every key is computed before the sort; [.items()]
    of a value that is not a dict raises [AttributeError].  [None] as in
    [sort_desc]. *)
Definition top3 (j : Json) : option (Result (list (string * Json))) :=
  match j with
  | JObj fields =>
      match mapM (fun '(m, stats) => k <- total_key stats ;; ret (m, k)) fields with
      | inl e => Some (inl e)
      | inr keyed => option_map (fun r => sorted <- r ;; ret (firstn 3 sorted)) (sort_desc keyed)
      end
  | _ => Some (raise AttributeError)
  end.

(** Lines 133-157, given the decoded upload ([None]: [json.load] raised):
    the season file afterwards and the sidebar messages. *)
Definition season_upload (file : option Json) (upload : option Json)
  : option Json * list UploadMsg :=
  match upload with
  | None => (file, [UFailed])
  | Some j =>
      match missing_managers j MANAGERS with
      | inl _ => (file, [UFailed])
      | inr ((_ :: _) as missing) => (file, [UWarning missing])
      | inr [] =>
          match top3 j with
          | Some (inr top) => (Some j, [USuccess; UTop3 top])
          | Some (inl _) => (Some j, [USuccess; UFailed])
          | None => (Some j, [USuccess; UTop3Unsettled])
          end
      end
  end.

(** [\d*] matches the whole string. *)
Fixpoint all_digits (s : string) : bool :=
  match s with
  | EmptyString => true
  | String c s' => is_digit c && all_digits s'
  end.

(** The two groups of a [(\d{4})_week_(\d+)] match. *)
Definition week_key_shape (year week : string) : Prop :=
  String.length year = 4%nat /\ all_digits year = true /\
  week <> EmptyString /\ all_digits week = true.

(* ------------------------------------------------------------------ *)
(** ** The salaries folder and the admin CSV upload *)

Definition SALARIES_FOLDER : string := "salaries".

Definition str_endswith (suffix s : string) : bool :=
  String.prefix (rev_string suffix) (rev_string s).

(** The names [glob("*.csv")] lists: ending in [.csv], not hidden. *)
Definition is_csv_name (n : string) : bool :=
  str_endswith ".csv" n && negb (String.prefix "." n).

(** [glob.glob(os.path.join(SALARIES_FOLDER, "*.csv"))], the folder given
    by the names of its files. *)
Definition salaries_glob (folder : list string) : list string :=
  map (fun n => SALARIES_FOLDER ++ "/" ++ n) (filter is_csv_name folder).

(** Lines 102-113: for [username in ["Mariah"]], an uploaded file is
    written to [salaries/<name>]; writing an existing name replaces its
    content and leaves the listing as it was. *)
Definition admin_csv_upload (username : string) (folder : list string)
    (uploaded : option string) : list string :=
  if str_mem username ["Mariah"] then
    match uploaded with
    | Some fname => if str_mem fname folder then folder else app folder [fname]
    | None => folder
    end
  else folder.

(* ------------------------------------------------------------------ *)
(** ** The value [total_points += points] adds *)

(** The number a JSON value stands for when [add_points] accepts it. *)
Definition json_points (j : Json) : Q :=
  match j with
  | JNum q => q
  | JBool b => if b then 1 else 0
  | _ => 0
  end.

(** Values that [total_points += points] refuses. *)
Definition non_numeric (j : Json) : bool :=
  match j with JNum _ | JBool _ => false | _ => true end.

(* ------------------------------------------------------------------ *)
(** ** Which players a slot may offer *)

(** Line 221: the position test of a slot's pool. *)
Definition slot_eligible (pos : string) (p : Player) : Prop :=
  if String.eqb pos "FLEX" then In (position p) ["RB"; "WR"; "TE"] else position p = pos.

(* ================================================================== *)
(** * Helper lemmas *)

Lemma str_mem_In x l : str_mem x l = true <-> In x l.
Proof.
  induction l as [|y l IH]; simpl.
  - split; [discriminate | tauto].
  - rewrite orb_true_iff, IH, String.eqb_eq. split; intros [H|H]; auto.
Qed.

Lemma string_app_assoc (a b c : string) : a ++ (b ++ c) = (a ++ b) ++ c.
Proof. induction a as [|x a IH]; simpl; [reflexivity|now rewrite IH]. Qed.

Lemma dict_mem_get {A} (d : list (string * A)) k :
  dict_mem d k = false -> dict_get d k = None.
Proof. unfold dict_mem. destruct (dict_get d k); congruence. Qed.

Lemma mapM_Forall2 {A B} (f : A -> Result B) l bs :
  mapM f l = inr bs -> Forall2 (fun a b => f a = inr b) l bs.
Proof.
  revert bs. induction l as [|a l IH]; simpl; intros bs H.
  - inversion H. constructor.
  - destruct (f a) as [e|b] eqn:Ef; simpl in H; [discriminate|].
    destruct (mapM f l) as [e|bs'] eqn:Em; simpl in H; [discriminate|].
    inversion H; subst. constructor; auto.
Qed.

(** *** Binary64 rounding *)

Lemma round_half_even_close N D :
  (0 < D)%Z -> (2 * Z.abs (round_half_even N D * D - N) <= D)%Z.
Proof.
  intros Hd. unfold round_half_even.
  pose proof (Z.div_mod N D ltac:(lia)) as Hdm.
  pose proof (Z.mod_pos_bound N D Hd) as Hb.
  set (fl := (N / D)%Z) in *. set (r := (N mod D)%Z) in *.
  assert (Hr : (N - fl * D = r)%Z) by lia.
  rewrite Hr.
  destruct (Z.compare_spec (2 * r) D) as [E|E|E].
  - destruct (Z.even fl); lia.
  - lia.
  - lia.
Qed.

Lemma rint_close y : (Qabs (inject_Z (rint y) - y) <= 1 # 2)%Q.
Proof.
  destruct y as [N D]. unfold rint. simpl Qnum; simpl Qden.
  pose proof (round_half_even_close N (Zpos D) ltac:(lia)) as H.
  set (h := round_half_even N (Zpos D)) in *.
  unfold Qle, Qabs, Qminus, Qplus, Qopp, inject_Z. simpl. lia.
Qed.

Lemma flog2_ge a d : (0 < a)%Z -> (0 < d)%Z -> ge_pow2 a d (flog2 a d) = true.
Proof.
  intros Ha Hd. unfold flog2. cbv zeta.
  destruct (ge_pow2 a d (Z.log2 a - Z.log2 d)) eqn:E; [exact E|].
  pose proof (Z.log2_spec a Ha) as [Ha1 Ha2].
  pose proof (Z.log2_spec d Hd) as [Hd1 Hd2].
  pose proof (Z.log2_nonneg a). pose proof (Z.log2_nonneg d).
  set (la := Z.log2 a) in *. set (ld := Z.log2 d) in *.
  rewrite Z.pow_succ_r in Ha2, Hd2 by lia.
  unfold ge_pow2. destruct (0 <=? la - ld - 1)%Z eqn:Hk; apply Z.leb_le.
  - apply Z.leb_le in Hk.
    assert (Hp : (2 ^ la = 2 ^ ld * 2 * 2 ^ (la - ld - 1))%Z).
    { replace la with (ld + 1 + (la - ld - 1))%Z at 1 by lia.
      rewrite !Z.pow_add_r by lia. rewrite Z.pow_1_r. ring. }
    assert (0 < 2 ^ (la - ld - 1))%Z by (apply Z.pow_pos_nonneg; lia).
    nia.
  - apply Z.leb_gt in Hk.
    assert (Hp : (2 ^ (- (la - ld - 1)) * 2 ^ la = 2 ^ ld * 2)%Z).
    { rewrite <- Z.pow_add_r by lia.
      replace (- (la - ld - 1) + la)%Z with (ld + 1)%Z by lia.
      rewrite Z.pow_add_r by lia. rewrite Z.pow_1_r. ring. }
    assert (0 < 2 ^ (- (la - ld - 1)))%Z by (apply Z.pow_pos_nonneg; lia).
    nia.
Qed.

Lemma dbl_exp_key a D E e :
  (0 < a)%Z -> (0 < D)%Z -> ge_pow2 a D E = true -> e = Z.max (-1074) (E - 52) ->
  ((0 <= e)%Z -> (D * 2 ^ e * 2 ^ 52 <= a)%Z) /\
  ((e < 0)%Z -> e = (-1074)%Z \/ (D * 2 ^ 52 <= a * 2 ^ (- e))%Z).
Proof.
  intros Ha HD HE ->. unfold ge_pow2 in HE.
  destruct (Z.max_spec (-1074) (E - 52)) as [[H1 H2]|[H1 H2]]; rewrite H2; split; intro He.
  - destruct (0 <=? E)%Z eqn:HE0; [|apply Z.leb_gt in HE0; lia].
    apply Z.leb_le in HE.
    rewrite <- Z.mul_assoc, <- Z.pow_add_r by lia.
    replace (E - 52 + 52)%Z with E by lia. exact HE.
  - right. destruct (0 <=? E)%Z eqn:HE0.
    + apply Z.leb_le in HE0. apply Z.leb_le in HE.
      assert (Hp : (2 ^ 52 = 2 ^ E * 2 ^ (- (E - 52)))%Z).
      { rewrite <- Z.pow_add_r by lia. f_equal. lia. }
      assert (0 < 2 ^ (- (E - 52)))%Z by (apply Z.pow_pos_nonneg; lia).
      rewrite Hp. nia.
    + apply Z.leb_gt in HE0. apply Z.leb_le in HE.
      assert (Hp : (2 ^ (- (E - 52)) = 2 ^ (- E) * 2 ^ 52)%Z).
      { rewrite <- Z.pow_add_r by lia. f_equal. lia. }
      rewrite Hp. assert (0 < 2 ^ 52)%Z by lia. nia.
  - lia.
  - left. reflexivity.
Qed.

Lemma dbl_err q Y :
  dbl q = Fin Y ->
  (Qabs (Y - q) <= Qabs q * (1 # Pos.pow 2 53) + (1 # Pos.pow 2 1075))%Q.
Proof.
  destruct q as [n dq]. unfold dbl. cbv zeta.
  change (Qnum (n # dq)) with n. change (Qden (n # dq)) with dq.
  destruct (n =? 0)%Z eqn:Hn.
  { intro H. injection H as <-. apply Z.eqb_eq in Hn. subst n.
    unfold Qle, Qabs, Qminus, Qplus, Qopp, Qmult. simpl. lia. }
  set (a := Z.abs n). set (D := Zpos dq).
  assert (Ha : (0 < a)%Z) by (apply Z.eqb_neq in Hn; unfold a; lia).
  assert (HD : (0 < D)%Z) by (unfold D; lia).
  pose proof (flog2_ge a D Ha HD) as HE.
  set (E := flog2 a D) in *.
  set (e := Z.max (-1074) (E - 52)).
  destruct (dbl_exp_key a D E e Ha HD HE eq_refl) as [K1 K2].
  assert (Hsa : (Z.sgn n * a = n)%Z) by (unfold a; destruct n; simpl; lia).
  assert (Hsg : Z.abs (Z.sgn n) = 1%Z) by (apply Z.eqb_neq in Hn; destruct n; simpl; lia).
  destruct (0 <=? e)%Z eqn:He; [rewrite Bool.andb_true_l | rewrite Bool.andb_false_l];
    cbv beta iota.
  - apply Z.leb_le in He. specialize (K1 He).
    assert (HP : (0 < 2 ^ e)%Z) by (apply Z.pow_pos_nonneg; lia).
    remember (2 ^ e)%Z as P eqn:HPd.
    pose proof (round_half_even_close a (D * P) ltac:(nia)) as Hm.
    remember (round_half_even a (D * P)) as m eqn:Hmd. clear Hmd.
    destruct (2 ^ 1024 <=? m * P)%Z; [discriminate|].
    intro H. injection H as <-. unfold scale2. rewrite (proj2 (Z.leb_le 0 e) He), <- HPd.
    assert (Habs : Z.abs (Z.sgn n * m * P * D + - n * 1) = Z.abs (m * (D * P) - a)).
    { transitivity (Z.abs (Z.sgn n * (m * (D * P)) - Z.sgn n * a)).
      - f_equal. rewrite Hsa. ring.
      - rewrite <- Z.mul_sub_distr_l, Z.abs_mul, Hsg. ring. }
    unfold Qle, Qabs, Qminus, Qplus, Qopp, Qmult, inject_Z. cbn [Qnum Qden].
    rewrite !Pos2Z.inj_mul. fold D. rewrite Habs.
    assert (Hpow : (Zpos (Pos.pow 2 53) = 2 * 2 ^ 52)%Z) by reflexivity.
    rewrite Hpow. assert (0 < Zpos (Pos.pow 2 1075))%Z by lia.
    set (T := Zpos (Pos.pow 2 1075)) in *.
    assert (0 < 2 ^ 52)%Z by lia. set (F := (2 ^ 52)%Z) in *.
    assert (2 * Z.abs (m * (D * P) - a) * F <= D * P * F)%Z
      by (apply Z.mul_le_mono_nonneg_r; lia).
    set (X := Z.abs (m * (D * P) - a)) in *.
    assert (X * (2 * F) <= a)%Z by lia.
    idtac.
    nia.
  - apply Z.leb_gt in He. specialize (K2 He).
    assert (HP : (0 < 2 ^ (- e))%Z) by (apply Z.pow_pos_nonneg; lia).
    remember (2 ^ (- e))%Z as P eqn:HPd.
    pose proof (round_half_even_close (a * P) D HD) as Hm.
    remember (round_half_even (a * P) D) as m eqn:Hmd. clear Hmd.
    intro H. injection H as <-. unfold scale2. rewrite (proj2 (Z.leb_gt 0 e) He), <- HPd.
    assert (Habs : Z.abs (Z.sgn n * m * D + - n * P) = Z.abs (m * D - a * P)).
    { transitivity (Z.abs (Z.sgn n * (m * D) - Z.sgn n * a * P)).
      - f_equal. rewrite Hsa. ring.
      - rewrite <- Z.mul_assoc, <- Z.mul_sub_distr_l, Z.abs_mul, Hsg. ring. }
    unfold Qle, Qabs, Qminus, Qplus, Qopp, Qmult. cbn [Qnum Qden].
    rewrite !Pos2Z.inj_mul. rewrite Z2Pos.id by exact HP. fold D. rewrite Habs.
    assert (Hpow : (Zpos (Pos.pow 2 53) = 2 * 2 ^ 52)%Z) by reflexivity.
    rewrite Hpow. assert (0 < 2 ^ 52)%Z by lia. set (F := (2 ^ 52)%Z) in *.
    destruct K2 as [Ee | K2].
    + assert (Hpt : (Zpos (Pos.pow 2 1075) = 2 * P)%Z) by (rewrite HPd, Ee; reflexivity).
      rewrite Hpt. nia.
    + assert (0 < Zpos (Pos.pow 2 1075))%Z by lia.
      set (T := Zpos (Pos.pow 2 1075)) in *.
      assert (Z.abs (m * D - a * P) * 2 * F <= a * P)%Z by nia.
      nia.
Qed.

Lemma dbl_not_nan q : dbl q <> NaN.
Proof.
  unfold dbl. cbv zeta.
  destruct (Qnum q =? 0)%Z; [discriminate|].
  destruct (_ && _); discriminate.
Qed.

Lemma dbl_inf q neg : dbl q = Inf neg -> (inject_Z (2 ^ 1023) <= Qabs q)%Q.
Proof.
  destruct q as [n dq]. unfold dbl. cbv zeta.
  change (Qnum (n # dq)) with n. change (Qden (n # dq)) with dq.
  destruct (n =? 0)%Z eqn:Hn; [discriminate|].
  set (a := Z.abs n). set (D := Zpos dq).
  assert (Ha : (0 < a)%Z) by (apply Z.eqb_neq in Hn; unfold a; lia).
  assert (HD : (0 < D)%Z) by (unfold D; lia).
  pose proof (flog2_ge a D Ha HD) as HE.
  set (E := flog2 a D) in *.
  set (e := Z.max (-1074) (E - 52)).
  destruct (dbl_exp_key a D E e Ha HD HE eq_refl) as [K1 _].
  destruct (0 <=? e)%Z eqn:He; [rewrite Bool.andb_true_l | rewrite Bool.andb_false_l];
    cbv beta iota; [|discriminate].
  apply Z.leb_le in He. specialize (K1 He).
  assert (HP : (0 < 2 ^ e)%Z) by (apply Z.pow_pos_nonneg; lia).
  remember (2 ^ e)%Z as P eqn:HPd.
  pose proof (round_half_even_close a (D * P) ltac:(nia)) as Hm.
  remember (round_half_even a (D * P)) as m eqn:Hmd. clear Hmd.
  destruct (2 ^ 1024 <=? m * P)%Z eqn:Hov; [|discriminate]. intros _.
  apply Z.leb_le in Hov.
  assert (H1 : (2 ^ 1024 * D <= m * P * D)%Z) by (apply Z.mul_le_mono_nonneg_r; lia).
  unfold Qle, Qabs, inject_Z. cbn [Qnum Qden]. fold D. fold a.
  assert (Hc : (2 ^ 1024 = 2 * 2 ^ 1023)%Z) by reflexivity.
  assert (Hc2 : (2 ^ 1023 = 2 ^ 52 * 2 ^ 971)%Z) by reflexivity.
  assert (0 < 2 ^ 971)%Z by (apply Z.pow_pos_nonneg; lia).
  assert (0 < 2 ^ 52)%Z by lia.
  rewrite Hc in H1. rewrite Hc2 in *.
  set (F := (2 ^ 52)%Z) in *. set (G := (2 ^ 971)%Z) in *.
  nia.
Qed.

Lemma round_float_rounded v : fppg_rounded (CFloat (Fin v)) (round_float (Fin v)).
Proof.
  unfold fppg_rounded, round_float.
  destruct (dbl (100 * v)) as [y|neg|] eqn:Hd.
  - left. exists (rint y). split; [reflexivity|].
    pose proof (dbl_err _ _ Hd) as He. pose proof (rint_close y) as Hr.
    assert (Heq : (inject_Z (rint y) - 100 * v == (inject_Z (rint y) - y) + (y - 100 * v))%Q)
      by ring.
    rewrite Heq. eapply Qle_trans; [apply Qabs_triangle|].
    rewrite <- Qplus_assoc. apply Qplus_le_compat; assumption.
  - right. exists neg. split; [reflexivity|]. exact (dbl_inf _ _ Hd).
  - exfalso. exact (dbl_not_nan _ Hd).
Qed.

(** *** The column operations of [load_csv] *)

Lemma index_of_In x l i : index_of x l = Some i -> In x l.
Proof.
  revert i. induction l as [|y l IH]; simpl; intros i H; [discriminate|].
  destruct (String.eqb x y) eqn:E.
  - left. symmetry. apply String.eqb_eq. exact E.
  - right. destruct (index_of x l) as [j|] eqn:Ej; [|discriminate]. exact (IH j eq_refl).
Qed.

Lemma index_of_None x l : index_of x l = None -> ~ In x l.
Proof.
  induction l as [|y l IH]; simpl; intros H; [tauto|].
  destruct (String.eqb x y) eqn:E; [discriminate|].
  destruct (index_of x l) eqn:Ej; [discriminate|].
  intros [<-|Hin]; [rewrite String.eqb_refl in E; discriminate|exact (IH eq_refl Hin)].
Qed.

Lemma column_ok cols rows c xs :
  column cols rows c = inr xs ->
  exists i, index_of c cols = Some i /\ xs = map (fun row => cell_at row i) rows.
Proof.
  unfold column. destruct (index_of c cols) as [i|]; [|discriminate].
  intros H. injection H as <-. exists i. split; reflexivity.
Qed.

Lemma column_err cols rows c e :
  column cols rows c = inl e -> e = KeyError [c] /\ ~ In c cols.
Proof.
  unfold column. destruct (index_of c cols) as [i|] eqn:Ei; [discriminate|].
  intros H. injection H as <-. split; [reflexivity|]. exact (index_of_None _ _ Ei).
Qed.

Lemma mapM_err {A B} (f : A -> Result B) l e :
  (forall x e', f x = inl e' -> e' = TypeError) -> mapM f l = inl e -> e = TypeError.
Proof.
  intros Hf. induction l as [|x l IH]; simpl; [discriminate|].
  destruct (f x) as [e'|y] eqn:Ex; simpl.
  - intros H. injection H as <-. exact (Hf x e' Ex).
  - destruct (mapM f l) as [e'|ys]; simpl; [intros H; injection H as <-; exact (IH eq_refl)|discriminate].
Qed.

Lemma mapM_ok {A B} (f : A -> Result B) l :
  (forall x, In x l -> exists y, f x = inr y) -> exists ys, mapM f l = inr ys.
Proof.
  induction l as [|x l IH]; simpl; intros Hf; [exists []; reflexivity|].
  destruct (Hf x (or_introl eq_refl)) as [y Hy]. rewrite Hy.
  destruct IH as [ys Hys]; [intros z Hz; exact (Hf z (or_intror Hz))|].
  rewrite Hys. exists (y :: ys). reflexivity.
Qed.

Lemma col_add_str_err xs s e : col_add_str xs s = inl e -> e = TypeError.
Proof.
  unfold col_add_str. destruct (col_dtype xs).
  - apply mapM_err. intros [a| |[q|neg|]] e'; simpl; intros H; inversion H; reflexivity.
  - intros H. injection H as <-. reflexivity.
  - intros H. injection H as <-. reflexivity.
Qed.

Lemma col_add_err xs ys e : col_add xs ys = inl e -> e = TypeError.
Proof.
  unfold col_add. apply mapM_err.
  intros [x y] e'. simpl.
  destruct x as [a|z|[q|neg|]]; destruct y as [b|z'|[q'|neg'|]]; simpl;
    intros H; inversion H; reflexivity.
Qed.

Lemma col_dtype_str xs : Forall (fun x => is_str_cell x = true) xs -> col_dtype xs = DObject.
Proof.
  destruct xs as [|x xs]; [reflexivity|]. intros H. inversion H; subst.
  unfold col_dtype. simpl. rewrite H2. reflexivity.
Qed.

Lemma col_dtype_int xs : col_dtype xs = DInt -> forallb is_int_cell xs = true.
Proof.
  unfold col_dtype. destruct xs as [|x xs]; [discriminate|].
  destruct (existsb is_str_cell (x :: xs)); [discriminate|].
  destruct (forallb is_int_cell (x :: xs)); [reflexivity|discriminate].
Qed.

Lemma col_dtype_float xs : col_dtype xs = DFloat -> existsb is_str_cell xs = false.
Proof.
  unfold col_dtype. destruct xs as [|x xs]; [discriminate|].
  destruct (existsb is_str_cell (x :: xs)); [discriminate|reflexivity].
Qed.

Lemma round_col_rounded xs fs : round_col xs = inr fs -> Forall2 fppg_rounded xs fs.
Proof.
  unfold round_col. destruct (col_dtype xs) eqn:Hd; [discriminate| |].
  - intros H. injection H as <-. apply col_dtype_int in Hd.
    induction xs as [|x xs IH]; simpl in *; constructor.
    + apply andb_true_iff in Hd. destruct Hd as [Hx _].
      destruct x; try discriminate. reflexivity.
    + apply IH. apply andb_true_iff in Hd. exact (proj2 Hd).
  - intros H. injection H as <-. apply col_dtype_float in Hd.
    induction xs as [|x xs IH]; simpl in *; constructor.
    + apply orb_false_iff in Hd. destruct Hd as [Hx _].
      destruct x as [a|z|[v|neg|]]; try discriminate; try reflexivity.
      apply round_float_rounded.
    + apply IH. apply orb_false_iff in Hd. exact (proj2 Hd).
Qed.

Lemma load_name_cell x1 x2 y n :
  add_str_cell " " x1 = inr y -> add_cells y x2 = inr n ->
  n = match x1, x2 with
      | CStr a, CStr b => CStr (a ++ " " ++ b)
      | _, _ => CFloat NaN
      end.
Proof.
  destruct x1 as [a|z|[q|neg|]]; simpl; intros H1; inversion H1; subst;
    destruct x2 as [b|z'|[q'|neg'|]]; simpl; intros H2; inversion H2; subst;
    try reflexivity.
  rewrite <- string_app_assoc. reflexivity.
Qed.

(** One raw row and the row [load_csv] builds from it. *)
Lemma zip_rows_loaded cols i1 i2 i3 i4 i5 i6 i7 :
  index_of "first name" cols = Some i1 -> index_of "last name" cols = Some i2 ->
  index_of "position" cols = Some i3 -> index_of "team" cols = Some i4 ->
  index_of "opponent" cols = Some i5 -> index_of "salary" cols = Some i6 ->
  index_of "fppg" cols = Some i7 ->
  forall rows left names fs,
  Forall2 (fun x y => add_str_cell " " x = inr y) (map (fun row => cell_at row i1) rows) left ->
  Forall2 (fun xy n => add_cells (fst xy) (snd xy) = inr n)
    (combine left (map (fun row => cell_at row i2) rows)) names ->
  Forall2 fppg_rounded (map (fun row => cell_at row i7) rows) fs ->
  Forall2 (fun row r =>
      row_loaded_as cols row r /\
      cell_of cols row "team" = Some (r_team r) /\
      cell_of cols row "opponent" = Some (r_opponent r) /\
      cell_of cols row "salary" = Some (r_salary r))
    rows
    (zip_rows names (map normalize_position (map (fun row => cell_at row i3) rows))
       (map (fun row => cell_at row i4) rows) (map (fun row => cell_at row i5) rows)
       (map (fun row => cell_at row i6) rows) fs).
Proof.
  intros E1 E2 E3 E4 E5 E6 E7.
  induction rows as [|row rows IH]; intros left names fs H1 H2 H3.
  - cbn [map] in H1, H3. inversion H1; subst. inversion H3; subst.
    cbn [combine] in H2. inversion H2; subst. constructor.
  - cbn [map] in H1, H3. inversion H1 as [|x y l1 l2 Hy H1' Hx Hl]; subst.
    cbn [combine map] in H2. inversion H2 as [|xy n l3 l4 Hn H2' Hxy Hl']; subst.
    inversion H3 as [|x f l5 l6 Hf H3' Hx' Hl'']; subst.
    cbn [map zip_rows]. constructor.
    + split.
      * exists (cell_at row i1), (cell_at row i2), (cell_at row i3), (cell_at row i7).
        unfold cell_of. rewrite E1, E2, E3, E7.
        cbn [option_map r_name r_position r_fppg].
        repeat split; try assumption.
        -- exact (load_name_cell _ _ _ _ Hy Hn).
        -- destruct (cell_at row i3); reflexivity.
      * unfold cell_of. rewrite E4, E5, E6. repeat split.
    + eapply IH; eassumption.
Qed.

(** A successful load: one row per raw row, each built from its raw row. *)
Lemma load_csv_rows raw rows :
  load_csv raw = inr rows ->
  Forall2 (fun row r =>
      row_loaded_as (map norm_header (raw_columns raw)) row r /\
      cell_of (map norm_header (raw_columns raw)) row "team" = Some (r_team r) /\
      cell_of (map norm_header (raw_columns raw)) row "opponent" = Some (r_opponent r) /\
      cell_of (map norm_header (raw_columns raw)) row "salary" = Some (r_salary r))
    (raw_rows raw) rows.
Proof.
  unfold load_csv, bind.
  set (cols := map norm_header (raw_columns raw)).
  set (rws := raw_rows raw).
  destruct (column cols rws "first name") as [e|firsts] eqn:C1; [discriminate|].
  destruct (col_add_str firsts " ") as [e|left] eqn:C2; [discriminate|].
  destruct (column cols rws "last name") as [e|lasts] eqn:C3; [discriminate|].
  destruct (col_add left lasts) as [e|names] eqn:C4; [discriminate|].
  destruct (filter _ required_after_name) as [|m ms]; [|discriminate].
  destruct (column cols rws "position") as [e|ps] eqn:C5; [discriminate|].
  destruct (column cols rws "team") as [e|ts] eqn:C6; [discriminate|].
  destruct (column cols rws "opponent") as [e|os] eqn:C7; [discriminate|].
  destruct (column cols rws "salary") as [e|ss] eqn:C8; [discriminate|].
  destruct (column cols rws "fppg") as [e|xs] eqn:C9; [discriminate|].
  destruct (round_col xs) as [e|fs] eqn:C10; [discriminate|].
  unfold ret. intros H. injection H as <-.
  apply column_ok in C1, C3, C5, C6, C7, C8, C9.
  destruct C1 as [i1 [E1 ->]]. destruct C3 as [i2 [E2 ->]].
  destruct C5 as [i3 [E3 ->]]. destruct C6 as [i4 [E4 ->]].
  destruct C7 as [i5 [E5 ->]]. destruct C8 as [i6 [E6 ->]].
  destruct C9 as [i7 [E7 ->]].
  eapply (zip_rows_loaded cols i1 i2 i3 i4 i5 i6 i7 E1 E2 E3 E4 E5 E6 E7).
  - unfold col_add_str in C2. destruct (col_dtype _); try discriminate.
    exact (mapM_Forall2 _ _ _ C2).
  - exact (mapM_Forall2 _ _ _ C4).
  - exact (round_col_rounded _ _ C10).
Qed.

Lemma save_lineup_recorded file u l w w' m :
  recorded (load_leaderboard (save_lineup file u l w)) w' m =
  if String.eqb w' w && String.eqb m u then Some l
  else recorded (load_leaderboard file) w' m.
Proof.
  unfold save_lineup, recorded. simpl.
  set (lb := load_leaderboard file).
  destruct (String.eqb w' w) eqn:Ew.
  - apply String.eqb_eq in Ew. subst w'.
    rewrite dict_get_set_eq.
    destruct (String.eqb m u) eqn:Em.
    + apply String.eqb_eq in Em. subst m. simpl. apply dict_get_set_eq.
    + simpl. rewrite dict_get_set_neq by (apply String.eqb_neq; exact Em).
      destruct (dict_mem lb w) eqn:Hm.
      * unfold dict_mem in Hm. destruct (dict_get lb w); [reflexivity|discriminate].
      * rewrite dict_get_set_eq, (dict_mem_get _ _ Hm). reflexivity.
  - simpl. rewrite dict_get_set_neq by (apply String.eqb_neq; exact Ew).
    destruct (dict_mem lb w).
    + reflexivity.
    + rewrite dict_get_set_neq by (apply String.eqb_neq; exact Ew). reflexivity.
Qed.

Lemma submitted_lineup_recorded lb w u :
  dict_get (match dict_get lb w with Some wk => wk | None => [] end) u
  = recorded lb w u.
Proof. unfold recorded. destruct (dict_get lb w); reflexivity. Qed.

(* ================================================================== *)
(** * The claims *)

Definition keep_widget : Widget := fun _ options idx => nth idx options "--".

Definition jo_smith : Player := mkPlayer "Jo Smith" "WR" "KC" "BUF" 7000 1250.
Definition jo_smithers : Player := mkPlayer "Jo Smithers" "WR" "KC" "BUF" 6500 1430.
Definition c1_pool : list Player := [jo_smith; jo_smithers].
Definition c1_lineup : Lineup := [("WR1", jo_smithers); ("WR2", jo_smith)].
Definition no_filters : Filters := mkFilters [] [] [] (0, 7000)%Z.

(** Claim C1, which fails: the options of a slot should never offer a player
    assigned to a different slot.  With Jo Smithers in WR1 and Jo Smith in
    WR2, the run of the slot loop offers Jo Smith in the WR1 selectbox: the
    exclusion [p not in lineup.get(label, {}).get("name", [])] tests
    "Jo Smith" against the string "Jo Smithers", a substring test, so Jo Smith
    is kept.  WR1's own occupant is offered as the claim says. *)
Lemma C1_wr1_offers_wr2_occupant :
  dict_get c1_lineup "WR2" = Some jo_smith /\
  exists lineup' used' log opts,
    build_loop c1_pool no_filters keep_widget slots c1_lineup
               (initial_used c1_lineup) = inr (lineup', used', log) /\
    dict_get log "WR1" = Some opts /\
    In (fmt_option jo_smith) opts /\
    In (fmt_option jo_smithers) opts.
Proof.
  split; [reflexivity|].
  eexists _, _, _, _. split; [vm_compute; reflexivity|].
  split; [vm_compute; reflexivity|].
  split; vm_compute; auto 10.
Qed.

(** Claim C2, refuted: [save_lineup] does not refuse a duplicate
    write; saving for a (manager, week) already recorded replaces the
    stored lineup. *)
Lemma C2_save_lineup_overwrites :
  let file := save_lineup None "David" [("WR1", jo_smith)] "2025_week_3" in
  recorded (load_leaderboard file) "2025_week_3" "David" = Some [("WR1", jo_smith)] /\
  recorded (load_leaderboard (save_lineup file "David" [("WR1", jo_smithers)] "2025_week_3"))
    "2025_week_3" "David" = Some [("WR1", jo_smithers)].
Proof. split; vm_compute; reflexivity. Qed.

(** Claim C2, as the code has it: the page refuses a second submission: when the
    leaderboard file read at the start of a run already holds a non-empty
    lineup for (manager, week), the run offers no Save and leaves the file
    as it was, whatever the widgets and the click; [save_lineup] itself
    overwrites. *)
Theorem C2_submitted_page_keeps_file df file session username week_key f w click :
  truthy_lineup (recorded (load_leaderboard file) week_key username) = true ->
  exists session', render_build df file session username week_key f w click
                   = inr (file, session').
Proof.
  intros H. unfold render_build.
  unfold recorded in H.
  destruct (dict_get (load_leaderboard file) week_key) as [wk|] eqn:E;
    [|discriminate].
  rewrite H. eexists. reflexivity.
Qed.

(** Claim C3: within a run that shows the editor, the file changes exactly
    when Save is clicked for a non-empty lineup whose total salary is at most
    [SALARY_CAP] (60000, so 60000 is saved and 60001 is not), while the
    session keeps the lineup the slots produced whatever its total. *)
Theorem C3_cap_checked_only_at_save df file session username week_key f w click
    lineup' used' log :
  let sk := state_key username week_key in
  let session0 := if dict_mem session sk then session else dict_set session sk [] in
  let lineup := match dict_get session0 sk with Some l => l | None => [] end in
  truthy_lineup (recorded (load_leaderboard file) week_key username) = false ->
  build_loop df f w slots lineup (initial_used lineup) = inr (lineup', used', log) ->
  click <> ClickReset ->
  render_build df file session username week_key f w click =
    inr ((if match lineup' with [] => false | _ => true end
             && match click with ClickSave => true | _ => false end
             && (total_salary lineup' <=? SALARY_CAP)%Z
          then save_lineup file username lineup' week_key else file),
         dict_set session0 sk lineup').
Proof.
  intros sk session0 lineup Hsub Hloop Hclick.
  subst sk session0 lineup.
  unfold render_build. cbv zeta. rewrite submitted_lineup_recorded, Hsub.
  match goal with
  | |- context [build_loop ?a ?b ?c ?d ?e ?g] =>
      replace (build_loop a b c d e g) with
        (inr (lineup', used', log) : Result (Lineup * list string * list (string * list string)))
        by (rewrite <- Hloop; reflexivity)
  end.
  simpl.
  destruct lineup' as [|e rest]; [reflexivity|].
  unfold save_section.
  destruct click; [reflexivity | | congruence].
  simpl. unfold Z.gtb, Z.leb.
  destruct (total_salary (e :: rest) ?= SALARY_CAP)%Z; reflexivity.
Qed.

Lemma C2_submitted_page_keeps_file_witness :
  let file := save_lineup None "David" [("WR1", jo_smith)] "2025_week_3" in
  exists session',
    render_build c1_pool file [] "David" "2025_week_3" no_filters keep_widget ClickSave
    = inr (file, session').
Proof.
  intros file.
  apply C2_submitted_page_keeps_file. vm_compute. reflexivity.
Defined.

Definition qb60 : Player := mkPlayer "Al Bo" "QB" "KC" "BUF" 60000 2010.

Lemma C3_cap_checked_only_at_save_witness :
  truthy_lineup (recorded (load_leaderboard None) "2025_week_3" "David") = false /\
  render_build [qb60] None [(state_key "David" "2025_week_3", [("QB", qb60)])]
    "David" "2025_week_3" no_filters keep_widget ClickSave =
  inr (save_lineup None "David" [("QB", qb60)] "2025_week_3",
       [(state_key "David" "2025_week_3", [("QB", qb60)])]).
Proof.
  split; [reflexivity|].
  refine (C3_cap_checked_only_at_save [qb60] None
            [(state_key "David" "2025_week_3", [("QB", qb60)])]
            "David" "2025_week_3" no_filters keep_widget ClickSave
            [("QB", qb60)] ["Al Bo"] _ _ _ _).
  - reflexivity.
  - vm_compute. reflexivity.
  - discriminate.
Defined.


Definition c5_raw : RawTable :=
  mkRawTable [" First Name"; "Last Name "; "Position"; "Team"; "Salary"; "FPPG"]
    [[CStr "Al"; CStr "Bo"; CStr "QB"; CStr "KC"; CInt 9000; CFloat (dbl (2015#100))]].


(** A file with integer first names and no position column: the name
    concatenation raises [TypeError] before the column selection can raise
    [KeyError]. *)
Definition c5_int_names_raw : RawTable :=
  mkRawTable ["First Name"; "Last Name"; "Team"; "Opponent"; "Salary"; "FPPG"]
    [[CInt 7; CStr "Bo"; CStr "KC"; CStr "BUF"; CInt 9000; CFloat (dbl (2015#100))]].


(** What slot [label] adds to the salary: its player's salary, 0 if empty. *)
Definition slot_salary (lineup : Lineup) (label : string) : Z :=
  match dict_get lineup label with Some p => salary p | None => 0%Z end.

Definition slot_sum (labels : list string) (lineup : Lineup) : Z :=
  fold_right (fun label acc => (slot_salary lineup label + acc)%Z) 0%Z labels.

Lemma total_salary_del (l : Lineup) k p :
  dict_get l k = Some p -> total_salary l = (salary p + total_salary (dict_del l k))%Z.
Proof.
  unfold total_salary, dict_values.
  induction l as [|[k' v] l IH]; simpl; [discriminate|].
  destruct (String.eqb k k'); intros H.
  - inversion H; subst. reflexivity.
  - simpl. rewrite (IH H). lia.
Qed.

Lemma dict_get_del_neq {A} (l : list (string * A)) k k2 :
  k2 <> k -> dict_get (dict_del l k) k2 = dict_get l k2.
Proof.
  intros Hne. induction l as [|[k' v] l IH]; simpl; [reflexivity|].
  destruct (String.eqb k k') eqn:E; simpl.
  - apply String.eqb_eq in E. subst k'.
    destruct (String.eqb k2 k) eqn:E2; [apply String.eqb_eq in E2; congruence|].
    reflexivity.
  - destruct (String.eqb k2 k'); [reflexivity|exact IH].
Qed.

Lemma keys_del_incl {A} (l : list (string * A)) k x :
  In x (map fst (dict_del l k)) -> In x (map fst l).
Proof.
  induction l as [|[k' v] l IH]; simpl; [tauto|].
  destruct (String.eqb k k'); simpl; intuition.
Qed.

Lemma keys_del_NoDup {A} (l : list (string * A)) k :
  NoDup (map fst l) -> NoDup (map fst (dict_del l k)) /\ ~ In k (map fst (dict_del l k)).
Proof.
  induction l as [|[k' v] l IH]; simpl; intros Hnd.
  - split; [constructor|tauto].
  - inversion Hnd as [|? ? Hnin Hnd']; subst.
    destruct (String.eqb k k') eqn:E.
    + apply String.eqb_eq in E. subst k'. split; assumption.
    + apply String.eqb_neq in E. destruct (IH Hnd') as [H1 H2]. simpl. split.
      * constructor; [|exact H1]. intros Hx. apply Hnin. eapply keys_del_incl; eauto.
      * intros [Hx|Hx]; [congruence|contradiction].
Qed.

Lemma dict_get_None_notin {A} (l : list (string * A)) k :
  dict_get l k = None -> ~ In k (map fst l).
Proof.
  induction l as [|[k' v] l IH]; simpl; [tauto|].
  destruct (String.eqb k k') eqn:E; [discriminate|].
  apply String.eqb_neq in E. intros H [Hx|Hx]; [congruence|exact (IH H Hx)].
Qed.

Lemma slot_sum_ext labels l1 l2 :
  (forall k, In k labels -> dict_get l1 k = dict_get l2 k) ->
  slot_sum labels l1 = slot_sum labels l2.
Proof.
  induction labels as [|k ks IH]; simpl; intros H; [reflexivity|].
  unfold slot_salary. rewrite (H k (or_introl eq_refl)).
  fold (slot_salary l1). fold (slot_salary l2).
  rewrite IH; [reflexivity|]. intros k' Hk'. apply H. right. exact Hk'.
Qed.

Lemma total_salary_slot_sum labels (l : Lineup) :
  NoDup labels -> NoDup (map fst l) -> incl (map fst l) labels ->
  total_salary l = slot_sum labels l.
Proof.
  revert l. induction labels as [|k ks IH]; intros l Hnl Hnd Hincl.
  - destruct l as [|[k v] l]; [reflexivity|].
    exfalso. apply (Hincl k). left. reflexivity.
  - inversion Hnl as [|? ? Hkn Hnl']; subst. simpl.
    unfold slot_salary at 1.
    destruct (dict_get l k) as [p|] eqn:Hg.
    + rewrite (total_salary_del l k p Hg).
      destruct (keys_del_NoDup l k Hnd) as [Hnd' Hnk].
      rewrite (IH (dict_del l k) Hnl' Hnd').
      * f_equal. apply slot_sum_ext. intros k' Hk'.
        apply dict_get_del_neq. intros ->. contradiction.
      * intros x Hx. destruct (Hincl x (keys_del_incl l k x Hx)) as [->|H];
          [contradiction|exact H].
    + apply IH; auto.
      intros x Hx. destruct (Hincl x Hx) as [->|H]; [|exact H].
      exfalso. exact (dict_get_None_notin l x Hg Hx).
Qed.

(** Claim C6: the total salary of a lineup dict is the sum of the salaries
    of its assigned players, and equals the sum over the nine slot labels
    where an unassigned slot adds 0 (for any dict whose keys are distinct
    slot labels, as every lineup the loop builds is). *)
Theorem C6_total_salary_sums_assigned (lineup : Lineup) :
  NoDup (map fst lineup) -> incl (map fst lineup) (map fst slots) ->
  total_salary lineup = fold_right Z.add 0%Z (map salary (dict_values lineup)) /\
  total_salary lineup = slot_sum (map fst slots) lineup.
Proof.
  intros Hnd Hincl. split; [reflexivity|].
  apply total_salary_slot_sum; auto.
  vm_compute. repeat constructor; simpl; intuition discriminate.
Qed.

Lemma C6_total_salary_sums_assigned_witness :
  total_salary [("WR1", jo_smithers); ("QB", qb60)] = 66500%Z /\
  slot_sum (map fst slots) [("WR1", jo_smithers); ("QB", qb60)] = 66500%Z.
Proof.
  assert (Hnd : NoDup (map fst [("WR1", jo_smithers); ("QB", qb60)])).
  { simpl. constructor; [simpl; intuition discriminate|].
    constructor; [simpl; tauto|constructor]. }
  assert (Hincl : incl (map fst [("WR1", jo_smithers); ("QB", qb60)]) (map fst slots)).
  { intros x Hx. simpl in Hx. vm_compute. intuition. }
  destruct (C6_total_salary_sums_assigned _ Hnd Hincl) as [_ H].
  split; [vm_compute; reflexivity|]. rewrite <- H. vm_compute. reflexivity.
Defined.

(** Claim C7: Save needs no complete lineup: any non-empty lineup within the
    cap is written by a Save click and recorded for (manager, week),
    however many slots are empty. *)
Theorem C7_partial_lineup_saved file username week_key (lineup : Lineup) :
  lineup <> [] -> (total_salary lineup <= SALARY_CAP)%Z ->
  save_section file username week_key lineup ClickSave
    = (save_lineup file username lineup week_key, false) /\
  recorded (load_leaderboard (save_lineup file username lineup week_key))
    week_key username = Some lineup.
Proof.
  intros Hne Hcap. split.
  - destruct lineup as [|e rest]; [contradiction|]. unfold save_section.
    destruct (total_salary (e :: rest) >? SALARY_CAP)%Z eqn:E; [|reflexivity].
    apply Z.gtb_lt in E. lia.
  - rewrite save_lineup_recorded, !String.eqb_refl. reflexivity.
Qed.

Lemma C7_partial_lineup_saved_witness :
  is_complete [("QB", qb60)] = false /\
  recorded (load_leaderboard (save_lineup None "Amos" [("QB", qb60)] "2025_week_3"))
    "2025_week_3" "Amos" = Some [("QB", qb60)].
Proof.
  split; [vm_compute; reflexivity|].
  apply (C7_partial_lineup_saved None "Amos" "2025_week_3" [("QB", qb60)]).
  - discriminate.
  - vm_compute. discriminate.
Defined.

(** Claim C8 (corrected): every loaded row comes from its raw row with
    [name = first name + " " + last name] (NaN when either is missing),
    position ["DEF"] renamed ["D"] and fppg rounded the numpy way, to
    [rint] of the float product [x * 100]: within half a hundredth up to
    that product's rounding error, but not always to the nearest
    hundredth. *)
Theorem C8_load_csv_normalises raw rows :
  load_csv raw = inr rows ->
  Forall2 (row_loaded_as (map norm_header (raw_columns raw))) (raw_rows raw) rows.
Proof.
  intros H. eapply Forall2_impl; [|exact (load_csv_rows raw rows H)].
  intros row r [Hr _]. exact Hr.
Qed.

Definition c8_raw : RawTable :=
  mkRawTable ["First Name"; "Last Name"; "Position"; "Team"; "Opponent"; "Salary"; "FPPG"]
    [[CStr "Kansas City"; CStr "Chiefs"; CStr "DEF"; CStr "KC"; CStr "BUF";
      CInt 4500; CFloat (dbl (8123#1000))]].

Definition c8_rows : list Row :=
  [mkRow (CStr "Kansas City Chiefs") (CStr "D") (CStr "KC") (CStr "BUF") (CInt 4500) (FHund 812)].

Lemma C8_load_csv_normalises_witness :
  load_csv c8_raw = inr c8_rows /\
  Forall2 (row_loaded_as (map norm_header (raw_columns c8_raw))) (raw_rows c8_raw) c8_rows.
Proof.
  assert (H : load_csv c8_raw = inr c8_rows) by (vm_compute; reflexivity).
  split; [exact H|]. exact (C8_load_csv_normalises c8_raw _ H).
Defined.

(** The float that the text [12.345] parses to. *)
Definition c8_tie_fppg : Q := 6949617174986097 # 562949953421312.

Definition c8_tie_raw : RawTable :=
  mkRawTable ["First Name"; "Last Name"; "Position"; "Team"; "Opponent"; "Salary"; "FPPG"]
    [[CStr "Al"; CStr "Bo"; CStr "QB"; CStr "KC"; CStr "BUF"; CInt 9000;
      CFloat (Fin c8_tie_fppg)]].

(** Claim C8, counterexample: fppg [12.345] (the float just above
    [12.345]) is loaded as [12.34], though [12.35] is the nearer hundredth:
    [x * 100] rounds to the float [1234.5], which [rint] takes to the even
    [1234]. *)
Lemma C8_fppg_not_nearest_hundredth :
  dbl (12345 # 1000) = Fin c8_tie_fppg /\
  load_csv c8_tie_raw =
    inr [mkRow (CStr "Al Bo") (CStr "QB") (CStr "KC") (CStr "BUF") (CInt 9000) (FHund 1234)] /\
  (Qabs (inject_Z 1235 - 100 * c8_tie_fppg) < Qabs (inject_Z 1234 - 100 * c8_tie_fppg))%Q.
Proof.
  split; [vm_compute; reflexivity|]. split; vm_compute; reflexivity.
Qed.

(** Claim C9: a run in which Reset is clicked leaves the leaderboard file as
    it was and changes no session entry but the in-progress lineup of this
    manager and week, which it empties when the editor was shown. *)
Theorem C9_reset_only_clears_session df file session username week_key f w
    file' session' :
  render_build df file session username week_key f w ClickReset = inr (file', session') ->
  file' = file /\
  (forall k, k <> state_key username week_key -> dict_get session' k = dict_get session k) /\
  (truthy_lineup (recorded (load_leaderboard file) week_key username) = false ->
   dict_get session' (state_key username week_key) = Some []).
Proof.
  set (sk := state_key username week_key).
  assert (Hinit : forall k, k <> sk ->
            dict_get (if dict_mem session sk then session else dict_set session sk []) k
            = dict_get session k).
  { intros k Hk. destruct (dict_mem session sk); [reflexivity|].
    apply dict_get_set_neq. exact Hk. }
  unfold render_build. cbv zeta. rewrite submitted_lineup_recorded. fold sk.
  destruct (truthy_lineup (recorded (load_leaderboard file) week_key username)).
  - intros H. inversion H; subst. split; [reflexivity|]. split; [exact Hinit|discriminate].
  - destruct (build_loop _ _ _ _ _ _) as [e|[[lineup' used'] log]]; [discriminate|].
    simpl. destruct lineup' as [|e rest]; simpl; intros H; inversion H; subst;
      (split; [reflexivity|]); split; try (intros; apply dict_get_set_eq);
      intros k Hk; rewrite !dict_get_set_neq by exact Hk; exact (Hinit k Hk).
Qed.

Lemma C9_reset_only_clears_session_witness :
  exists session',
    render_build [qb60] None [(state_key "AJ" "2025_week_3", [("QB", qb60)])]
      "AJ" "2025_week_3" no_filters keep_widget ClickReset = inr (None, session') /\
    dict_get session' (state_key "AJ" "2025_week_3") = Some [].
Proof.
  destruct (render_build [qb60] None [(state_key "AJ" "2025_week_3", [("QB", qb60)])]
      "AJ" "2025_week_3" no_filters keep_widget ClickReset) as [e|[file' session']] eqn:H;
    [vm_compute in H; discriminate|].
  destruct (C9_reset_only_clears_session _ _ _ _ _ _ _ _ _ H) as [Hf [_ Hs]].
  exists session'. subst file'. split; [reflexivity|]. apply Hs. reflexivity.
Defined.

(** Claim C10: [save_lineup] for (manager, week) leaves every other
    (week, manager) entry of the leaderboard file as it was. *)
Theorem C10_save_lineup_frame file username (lineup : Lineup) week_key w m :
  (w, m) <> (week_key, username) ->
  recorded (load_leaderboard (save_lineup file username lineup week_key)) w m
  = recorded (load_leaderboard file) w m.
Proof.
  intros Hne. rewrite save_lineup_recorded.
  destruct (String.eqb w week_key) eqn:E1; [|reflexivity].
  destruct (String.eqb m username) eqn:E2; [|reflexivity].
  apply String.eqb_eq in E1, E2. subst. contradiction.
Qed.

Lemma C10_save_lineup_frame_witness :
  let file := save_lineup None "Danny" [("QB", qb60)] "2025_week_2" in
  recorded (load_leaderboard (save_lineup file "Danny" [("WR1", jo_smith)] "2025_week_3"))
    "2025_week_2" "Danny" = Some [("QB", qb60)].
Proof.
  intros file.
  rewrite (C10_save_lineup_frame file "Danny" [("WR1", jo_smith)] "2025_week_3"
             "2025_week_2" "Danny") by discriminate.
  vm_compute. reflexivity.
Defined.

Definition cache_numeric (cache : Cache) : Prop :=
  Forall (fun kv => numeric_json (snd kv)) cache.

Lemma failure_points_zero resp :
  is_lookup_failure resp = true -> fetch_points resp = JNum 0.
Proof.
  destruct resp as [|status body]; simpl; [reflexivity|].
  destruct (is_http_error status); simpl; [reflexivity|].
  destruct body as [[| | | | |fields]|]; try reflexivity.
  unfold dict_mem. destruct (dict_get fields "fantasy_points"); simpl;
    [discriminate|reflexivity].
Qed.

Lemma cache_numeric_get cache k v :
  cache_numeric cache -> dict_get cache k = Some v -> numeric_json v.
Proof.
  induction 1 as [|[k' v'] cache Hv Hc IH]; simpl; [discriminate|].
  destruct (String.eqb k k'); [intros H; inversion H; subst; exact Hv|exact IH].
Qed.

Lemma cache_numeric_set cache k v :
  cache_numeric cache -> numeric_json v -> cache_numeric (dict_set cache k v).
Proof.
  intros Hc Hv. induction Hc as [|[k' v'] cache Hv' Hc IH]; simpl.
  - constructor; [exact Hv|constructor].
  - destruct (String.eqb k k'); constructor; auto.
Qed.

Section Scoring.
Variable mapping : list (string * string).
Variable fetch : Fetch.
Hypothesis fetch_numeric : forall url, numeric_json (fetch_points (fetch url)).

Lemma points_for_numeric cache player_name season week :
  cache_numeric cache ->
  numeric_json (fst (points_for mapping cache fetch player_name season week)) /\
  cache_numeric (snd (points_for mapping cache fetch player_name season week)).
Proof.
  intros Hc. unfold points_for.
  destruct (dict_get mapping player_name) as [pid|]; [|simpl; auto].
  destruct (String.eqb pid ""); [simpl; auto|].
  unfold get_player_points.
  destruct (dict_get cache (cache_key pid season week)) as [v|] eqn:Hg.
  - simpl. split; [exact (cache_numeric_get cache _ v Hc Hg)|exact Hc].
  - simpl. split; [apply fetch_numeric|]. apply cache_numeric_set; auto.
Qed.

Lemma score_lineup_ok week lineup cache total :
  cache_numeric cache ->
  exists scores total' cache',
    score_lineup mapping fetch week lineup cache total = (cache', inr (scores, total')) /\
    cache_numeric cache'.
Proof.
  revert cache total. induction lineup as [|[slot player] rest IH]; intros cache total Hc.
  - simpl. eexists _, _, _. split; [reflexivity|exact Hc].
  - simpl.
    destruct (points_for_numeric cache (name player) SEASON_YEAR week Hc) as [Hp Hc1].
    destruct (points_for mapping cache fetch (name player) SEASON_YEAR week)
      as [points cache1] eqn:E. simpl in Hp, Hc1.
    destruct points as [| |q| | |]; try contradiction. simpl.
    destruct (IH cache1 (total + q)%Q Hc1) as (scores & total' & cache' & Hs & Hc').
    rewrite Hs. simpl. eexists _, _, _. split; [reflexivity|exact Hc'].
Qed.

Lemma weekly_scores_ok week managers cache :
  cache_numeric cache ->
  exists totals cache', weekly_scores mapping fetch week managers cache = (cache', inr totals).
Proof.
  revert cache. induction managers as [|[manager lineup_data] rest IH]; intros cache Hc.
  - eexists _, _. reflexivity.
  - simpl.
    destruct (score_lineup_ok week lineup_data cache 0%Q Hc)
      as (scores & total' & cache' & Hs & Hc').
    rewrite Hs. simpl. destruct (IH cache' Hc') as (totals & cache'' & Hw).
    rewrite Hw. simpl. eexists _, _. reflexivity.
Qed.

End Scoring.


Definition bob_mapping : list (string * string) := [("Bob Smith", "999")].
Definition timeout_fetch : Fetch := fun _ => NetError.


(* ================================================================== *)
(** * Beyond the claims: the rest of the script *)

(** ** Python's string order, and the sorted file list *)

Lemma str_leb_trans a b c :
  String.leb a b = true -> String.leb b c = true -> String.leb a c = true.
Proof.
  unfold String.leb.
  revert b c. induction a as [|x a IH]; intros [|y b] [|z c]; simpl; auto;
    try discriminate.
  unfold Ascii.compare.
  destruct (N.compare_spec (N_of_ascii x) (N_of_ascii y)) as [Exy|Exy|Exy];
  destruct (N.compare_spec (N_of_ascii y) (N_of_ascii z)) as [Eyz|Eyz|Eyz];
  try discriminate; intros H1 H2.
  - rewrite Exy, Eyz, N.compare_refl. exact (IH _ _ H1 H2).
  - rewrite Exy. rewrite (proj2 (N.compare_lt_iff _ _) Eyz). reflexivity.
  - rewrite <- Eyz. rewrite (proj2 (N.compare_lt_iff _ _) Exy). reflexivity.
  - rewrite (proj2 (N.compare_lt_iff (N_of_ascii x) (N_of_ascii z)) ltac:(lia)).
    reflexivity.
Qed.

Lemma str_leb_false_flip a b : String.leb a b = false -> String.leb b a = true.
Proof.
  intros H. destruct (String.leb_total a b) as [H'|H']; [congruence|exact H'].
Qed.

Lemma insert_sorted_In x y l : In y (insert_sorted x l) <-> y = x \/ In y l.
Proof.
  induction l as [|z l IH]; simpl; [intuition congruence|].
  destruct (String.leb x z); simpl; [intuition congruence|]. rewrite IH. intuition congruence.
Qed.

Lemma py_sorted_In y l : In y (py_sorted l) <-> In y l.
Proof.
  induction l as [|x l IH]; simpl; [tauto|].
  rewrite insert_sorted_In, IH. split; intros [H|H]; auto.
Qed.

Lemma insert_sorted_sorted x l :
  StronglySorted (fun a b => String.leb a b = true) l ->
  StronglySorted (fun a b => String.leb a b = true) (insert_sorted x l).
Proof.
  induction 1 as [|z l Hs IH Hf]; simpl.
  - repeat constructor.
  - destruct (String.leb x z) eqn:E.
    + constructor; [constructor; assumption|].
      constructor; [exact E|]. eapply Forall_impl; [|exact Hf].
      intros a Ha. exact (str_leb_trans _ _ _ E Ha).
    + constructor; [exact IH|]. apply Forall_forall. intros a Ha.
      apply insert_sorted_In in Ha. destruct Ha as [->|Ha].
      * apply str_leb_false_flip. exact E.
      * rewrite Forall_forall in Hf. exact (Hf a Ha).
Qed.

Lemma py_sorted_sorted l :
  StronglySorted (fun a b => String.leb a b = true) (py_sorted l).
Proof.
  induction l as [|x l IH]; simpl; [constructor|]. apply insert_sorted_sorted. exact IH.
Qed.

Lemma str_leb_refl x : String.leb x x = true.
Proof.
  unfold String.leb. induction x as [|c x IH]; simpl; [reflexivity|].
  unfold Ascii.compare. rewrite N.compare_refl. exact IH.
Qed.

Lemma sorted_last_max (l : list string) d :
  StronglySorted (fun a b => String.leb a b = true) l ->
  forall x, In x l -> String.leb x (last l d) = true /\ In (last l d) l.
Proof.
  induction 1 as [|z l Hs IH Hf]; [contradiction|].
  intros x Hx. destruct l as [|z' l'].
  - destruct Hx as [->|[]]. simpl. split; [apply str_leb_refl|left; reflexivity].
  - change (last (z :: z' :: l') d) with (last (z' :: l') d).
    assert (Hlast : In (last (z' :: l') d) (z' :: l')).
    { exact (proj2 (IH z' (or_introl eq_refl))). }
    split; [|right; exact Hlast].
    destruct Hx as [->|Hx].
    + rewrite Forall_forall in Hf. exact (Hf _ Hlast).
    + exact (proj1 (IH x Hx)).
Qed.

(** ** The week-key regular expression *)

Lemma strip_prefix_app p s r : strip_prefix p s = Some r -> s = p ++ r.
Proof.
  revert s. induction p as [|a p IH]; intros [|b s]; simpl; try congruence.
  destruct (Ascii.eqb a b) eqn:E; [|discriminate].
  apply Ascii.eqb_eq in E. subst b. intros H. rewrite (IH s H). reflexivity.
Qed.

Lemma take_digits_app s : exists rest, s = take_digits s ++ rest.
Proof.
  induction s as [|c s IH]; simpl; [exists EmptyString; reflexivity|].
  destruct (is_digit c); [destruct IH as [rest Hr]; exists rest; simpl; f_equal; exact Hr|].
  exists (String c s). reflexivity.
Qed.

Lemma take_digits_all s : all_digits (take_digits s) = true.
Proof.
  induction s as [|c s IH]; simpl; [reflexivity|].
  destruct (is_digit c) eqn:E; simpl; [rewrite E; exact IH|reflexivity].
Qed.

Lemma match_week_at_spec s y w :
  match_week_at s = Some (y, w) ->
  week_key_shape y w /\ exists rest, s = y ++ "_week_" ++ w ++ rest.
Proof.
  unfold match_week_at. intros H.
  destruct s as [|a [|b [|c [|d rest]]]]; try discriminate H.
  destruct (is_digit a) eqn:Ea, (is_digit b) eqn:Eb, (is_digit c) eqn:Ec,
           (is_digit d) eqn:Ed; cbn -[strip_prefix take_digits] in H; try discriminate H.
  destruct (strip_prefix "_week_" rest) as [rest'|] eqn:Es; cbn -[take_digits] in H; [|discriminate H].
  apply strip_prefix_app in Es. subst rest.
  destruct (take_digits_app rest') as [tl Htl].
  pose proof (take_digits_all rest') as Hall.
  destruct (take_digits rest') as [|e w'] eqn:Et; cbn in H; [discriminate H|].
  inversion H; subst y w. split.
  - repeat split; simpl; try rewrite Ea, Eb, Ec, Ed; auto; discriminate.
  - exists tl. rewrite Htl at 1. reflexivity.
Qed.

Lemma prefix_app p r : String.prefix p (p ++ r) = true.
Proof.
  induction p as [|a p IH]; simpl; [destruct r; reflexivity|].
  destruct (ascii_dec a a) as [_|Hn]; [exact IH|congruence].
Qed.

Lemma str_contains_prefix s x : String.prefix x s = true -> str_contains s x = true.
Proof. destruct s; simpl; intros H; rewrite H; reflexivity. Qed.

Lemma str_contains_app pre x rest : str_contains (pre ++ x ++ rest) x = true.
Proof.
  induction pre as [|c pre IH]; simpl.
  - apply str_contains_prefix, prefix_app.
  - rewrite IH, orb_true_r. reflexivity.
Qed.

Lemma week_search_spec s y w :
  week_search s = Some (y, w) ->
  week_key_shape y w /\ exists pre rest, s = pre ++ y ++ "_week_" ++ w ++ rest.
Proof.
  induction s as [|c s IH]; intros H.
  - simpl in H. discriminate H.
  - assert (Hu : week_search (String c s) =
                 match match_week_at (String c s) with
                 | Some r => Some r | None => week_search s end) by reflexivity.
    rewrite Hu in H. clear Hu.
    destruct (match_week_at (String c s)) as [[y' w']|] eqn:E.
    + inversion H; subst. apply match_week_at_spec in E.
      destruct E as [Hs [rest Hr]]. split; [exact Hs|].
      exists EmptyString, rest. exact Hr.
    + destruct (IH H) as [Hs [pre [rest Hr]]]. split; [exact Hs|].
      exists (String c pre), rest. rewrite Hr. reflexivity.
Qed.

Lemma load_latest_csv_spec paths latest key :
  load_latest_csv paths = (Some latest, key) ->
  In latest paths /\ (forall p, In p paths -> String.leb p latest = true) /\
  exists year week, key = year ++ "_week_" ++ week /\ week_key_shape year week /\
    str_contains latest key = true.
Proof.
  unfold load_latest_csv. cbv zeta.
  destruct (py_sorted paths) as [|f fs] eqn:Es; [discriminate|].
  match goal with |- context[week_search ?t] =>
    remember t as lt eqn:Elt;
    destruct (week_search lt) as [[y w]|] eqn:Ew; [|discriminate] end.
  intros H. injection H as <- <-.
  pose proof (py_sorted_sorted paths) as Hs. rewrite Es in Hs.
  split; [|split].
  - apply py_sorted_In. rewrite Es, Elt.
    exact (proj2 (sorted_last_max _ "" Hs f (or_introl eq_refl))).
  - intros p Hp. apply py_sorted_In in Hp. rewrite Es in Hp. rewrite Elt.
    exact (proj1 (sorted_last_max _ "" Hs p Hp)).
  - apply week_search_spec in Ew. destruct Ew as [Hshape [pre [rest Hr]]].
    exists y, w. split; [reflexivity|]. split; [exact Hshape|].
    rewrite Hr.
    replace (y ++ "_week_" ++ w ++ rest) with ((y ++ "_week_" ++ w) ++ rest)
      by (rewrite <- !string_app_assoc; reflexivity).
    apply str_contains_app.
Qed.

Lemma str_leb_app_l p a b : String.leb (p ++ a) (p ++ b) = String.leb a b.
Proof.
  unfold String.leb. induction p as [|c p IH]; simpl; [reflexivity|].
  unfold Ascii.compare. rewrite N.compare_refl. exact IH.
Qed.

Lemma week_search_salaries s : week_search ("salaries/" ++ s) = week_search s.
Proof. destruct s as [|a [|b [|c s]]]; reflexivity. Qed.

Lemma strip_prefix_self p r : strip_prefix p (p ++ r) = Some r.
Proof.
  induction p as [|a p IH]; simpl; [reflexivity|]. rewrite Ascii.eqb_refl. exact IH.
Qed.

Lemma digit_not_underscore c : is_digit c = true -> c <> "_"%char.
Proof. intros H ->. discriminate H. Qed.

Lemma split_first_digits w : all_digits w = true -> split_first "_week_" w = w.
Proof.
  induction w as [|c w IH]; intros H; [reflexivity|].
  simpl in H. apply andb_prop in H. destruct H as [Hc Hw].
  assert (E : split_first "_week_" (String c w) =
              if String.prefix "_week_" (String c w) then EmptyString
              else String c (split_first "_week_" w)) by reflexivity.
  change (String.prefix "_week_" (String c w)) with
    (match ascii_dec "_" c with left _ => String.prefix "week_" w | right _ => false end) in E.
  rewrite E. destruct (ascii_dec "_" c) as [Ec|_].
  - exfalso. exact (digit_not_underscore c Hc (eq_sym Ec)).
  - rewrite (IH Hw). reflexivity.
Qed.

Lemma split_second_week y w :
  all_digits y = true ->
  split_second "_week_" (y ++ "_week_" ++ w) = ret (split_first "_week_" w).
Proof.
  induction y as [|c y IH]; intros H.
  - reflexivity.
  - simpl in H. apply andb_prop in H. destruct H as [Hc Hy].
    assert (E : split_second "_week_" (String c y ++ "_week_" ++ w) =
                match strip_prefix "_week_" (String c (y ++ "_week_" ++ w)) with
                | Some rest => ret (split_first "_week_" rest)
                | None => split_second "_week_" (y ++ "_week_" ++ w)
                end) by reflexivity.
    rewrite E.
    assert (Es : strip_prefix "_week_" (String c (y ++ "_week_" ++ w)) = None).
    { cbn [strip_prefix].
      destruct (Ascii.eqb "_" c) eqn:Ec; [|reflexivity].
      apply Ascii.eqb_eq in Ec. exfalso. exact (digit_not_underscore c Hc (eq_sym Ec)). }
    rewrite Es. exact (IH Hy).
Qed.

Lemma digits_value_ok s acc :
  all_digits s = true -> (0 <= acc)%Z ->
  exists n, digits_value s acc = inr n /\ (0 <= n)%Z.
Proof.
  revert acc. induction s as [|c s IH]; intros acc H Hacc; simpl.
  - exists acc. split; [reflexivity|exact Hacc].
  - simpl in H. apply andb_prop in H. destruct H as [Hc Hs]. rewrite Hc.
    apply IH; [exact Hs|lia].
Qed.

Lemma py_int_digits w :
  w <> EmptyString -> all_digits w = true ->
  exists n, py_int w = inr n /\ (0 <= n)%Z.
Proof.
  intros Hne Hd. destruct w as [|c w]; [congruence|].
  exact (digits_value_ok (String c w) 0 Hd (Z.le_refl 0)).
Qed.

Lemma in_salaries_glob x folder :
  In x (salaries_glob folder) <->
  exists n, x = "salaries/" ++ n /\ In n folder /\ is_csv_name n = true.
Proof.
  unfold salaries_glob. rewrite in_map_iff. split.
  - intros [n [<- Hn]]. apply filter_In in Hn. exists n. tauto.
  - intros [n [-> [Hn Hc]]]. exists n. split; [reflexivity|]. apply filter_In. tauto.
Qed.

Lemma admin_csv_upload_In folder fname n :
  In n (admin_csv_upload "Mariah" folder (Some fname)) <-> In n folder \/ n = fname.
Proof.
  unfold admin_csv_upload. simpl str_mem.
  destruct (str_mem fname folder) eqn:E.
  - apply str_mem_In in E. split; [tauto|]. intros [H| ->]; assumption.
  - rewrite in_app_iff. simpl. intuition congruence.
Qed.

(** X1 ([load_latest_csv], lines 45-53): when a file is returned, it is
    one of the listed CSV paths, no listed path is greater in Python's
    string order, and the week key is [<4 digits>_week_<digits>], a
    substring of that path. *)
Theorem X1_latest_csv_is_greatest paths latest key :
  load_latest_csv paths = (Some latest, key) ->
  In latest paths /\ (forall p, In p paths -> String.leb p latest = true) /\
  exists year week, key = year ++ "_week_" ++ week /\ week_key_shape year week /\
    str_contains latest key = true.
Proof. exact (load_latest_csv_spec paths latest key). Qed.

Lemma X1_latest_csv_is_greatest_witness :
  load_latest_csv ["salaries/2025_week_3.csv"; "salaries/2025_week_2.csv"] =
    (Some "salaries/2025_week_3.csv", "2025_week_3") /\
  In "salaries/2025_week_3.csv" ["salaries/2025_week_3.csv"; "salaries/2025_week_2.csv"] /\
  (forall p, In p ["salaries/2025_week_3.csv"; "salaries/2025_week_2.csv"] ->
     String.leb p "salaries/2025_week_3.csv" = true) /\
  exists year week, "2025_week_3" = year ++ "_week_" ++ week /\ week_key_shape year week /\
    str_contains "salaries/2025_week_3.csv" "2025_week_3" = true.
Proof.
  split; [vm_compute; reflexivity|].
  apply X1_latest_csv_is_greatest. vm_compute. reflexivity.
Defined.

(** X2 ([load_latest_csv], line 46): the file list is sorted as strings,
    so a listing that holds a week-9 file never yields the week-10 file of
    the same name pattern as the latest one: ["..._week_10..."] sorts
    before ["..._week_9..."]. *)
Theorem X2_week_10_sorted_before_week_9 paths pre suf :
  In (pre ++ "9" ++ suf) paths ->
  fst (load_latest_csv paths) <> Some (pre ++ "10" ++ suf).
Proof.
  intros Hin H.
  destruct (load_latest_csv paths) as [o key] eqn:E.
  simpl in H. subst o. apply load_latest_csv_spec in E.
  destruct E as [_ [Hmax _]].
  specialize (Hmax (pre ++ "9" ++ suf) Hin).
  rewrite str_leb_app_l in Hmax. discriminate Hmax.
Qed.

Lemma X2_week_10_sorted_before_week_9_witness :
  In ("salaries/2025_week_" ++ "9" ++ ".csv")
    ["salaries/2025_week_10.csv"; "salaries/2025_week_9.csv"] /\
  fst (load_latest_csv ["salaries/2025_week_10.csv"; "salaries/2025_week_9.csv"])
    <> Some ("salaries/2025_week_" ++ "10" ++ ".csv").
Proof.
  assert (H : In ("salaries/2025_week_" ++ "9" ++ ".csv")
                ["salaries/2025_week_10.csv"; "salaries/2025_week_9.csv"])
    by (right; left; reflexivity).
  split; [exact H|]. exact (X2_week_10_sorted_before_week_9 _ _ _ H).
Defined.

(** X3 (line 281 after [load_latest_csv]): on a key that [load_latest_csv]
    returned, [int(current_week_key.split("_week_")[1])] never raises and
    gives [int] of the regex's week group, a non-negative number. *)
Theorem X3_week_number_of_latest_key paths latest key :
  load_latest_csv paths = (Some latest, key) ->
  exists year week n, key = year ++ "_week_" ++ week /\
    week_number key = inr n /\ py_int week = inr n /\ (0 <= n)%Z.
Proof.
  intros H. apply load_latest_csv_spec in H.
  destruct H as [_ [_ [y [w [-> [[_ [Hy [Hne Hw]]] _]]]]]].
  destruct (py_int_digits w Hne Hw) as [n [Hn Hpos]].
  exists y, w, n. split; [reflexivity|].
  unfold week_number. rewrite (split_second_week y w Hy). simpl.
  rewrite (split_first_digits w Hw). rewrite Hn. tauto.
Qed.

Lemma X3_week_number_of_latest_key_witness :
  load_latest_csv ["salaries/2025_week_12.csv"; "salaries/2025_week_11.csv"] =
    (Some "salaries/2025_week_12.csv", "2025_week_12") /\
  exists year week n, "2025_week_12" = year ++ "_week_" ++ week /\
    week_number "2025_week_12" = inr n /\ py_int week = inr n /\ (0 <= n)%Z.
Proof.
  split; [vm_compute; reflexivity|].
  apply (X3_week_number_of_latest_key
           ["salaries/2025_week_12.csv"; "salaries/2025_week_11.csv"]
           "salaries/2025_week_12.csv").
  vm_compute. reflexivity.
Defined.

(** X4 (admin CSV upload, lines 102-113, then [load_latest_csv]): when
    Mariah uploads a CSV whose name is not below any CSV already in the
    folder and carries a week key, that file becomes the current week's
    and its key the current week key. *)
Theorem X4_uploaded_csv_becomes_current folder fname year week :
  is_csv_name fname = true ->
  (forall n, In n folder -> is_csv_name n = true -> String.leb n fname = true) ->
  week_search fname = Some (year, week) ->
  load_latest_csv (salaries_glob (admin_csv_upload "Mariah" folder (Some fname))) =
    (Some ("salaries/" ++ fname), year ++ "_week_" ++ week).
Proof.
  intros Hcsv Hmax Hws.
  set (G := salaries_glob (admin_csv_upload "Mariah" folder (Some fname))).
  assert (Hin : In ("salaries/" ++ fname) G).
  { apply in_salaries_glob. exists fname. split; [reflexivity|].
    split; [apply admin_csv_upload_In; right; reflexivity|exact Hcsv]. }
  assert (Hle : forall x, In x G -> String.leb x ("salaries/" ++ fname) = true).
  { intros x Hx. apply in_salaries_glob in Hx. destruct Hx as [n [-> [Hn Hc]]].
    rewrite str_leb_app_l. apply admin_csv_upload_In in Hn. destruct Hn as [Hn| ->].
    - exact (Hmax n Hn Hc).
    - apply str_leb_refl. }
  unfold load_latest_csv. cbv zeta.
  pose proof (py_sorted_sorted G) as Hs.
  assert (HinS : In ("salaries/" ++ fname) (py_sorted G)) by (apply py_sorted_In; exact Hin).
  destruct (py_sorted G) as [|f fs] eqn:Es; [contradiction|].
  destruct (sorted_last_max _ "" Hs _ HinS) as [H1 H2].
  assert (H2' : In (last (f :: fs) "") G) by (apply py_sorted_In; rewrite Es; exact H2).
  clear H2. rename H2' into H2.
  assert (HL : last (f :: fs) "" = "salaries/" ++ fname).
  { apply String.leb_antisym; [exact (Hle _ H2)|exact H1]. }
  rewrite HL, week_search_salaries, Hws. reflexivity.
Qed.

Lemma X4_uploaded_csv_becomes_current_witness :
  is_csv_name "2025_week_3.csv" = true /\
  load_latest_csv (salaries_glob (admin_csv_upload "Mariah" ["2025_week_2.csv"; "notes.txt"]
                                   (Some "2025_week_3.csv"))) =
    (Some "salaries/2025_week_3.csv", "2025_week_3").
Proof.
  split; [vm_compute; reflexivity|].
  apply (X4_uploaded_csv_becomes_current ["2025_week_2.csv"; "notes.txt"] "2025_week_3.csv"
           "2025" "3").
  - vm_compute. reflexivity.
  - intros n [<-|[<-|[]]] Hc; vm_compute in *; congruence.
  - vm_compute. reflexivity.
Defined.

(** ** The score cache and the weekly table *)

Lemma get_player_points_extends cache fetch pid season week v cache' k x :
  get_player_points cache fetch pid season week = (v, cache') ->
  dict_get cache k = Some x -> dict_get cache' k = Some x.
Proof.
  unfold get_player_points.
  destruct (dict_get cache (cache_key pid season week)) as [y|] eqn:E;
    intros H; inversion H; subst; [tauto|].
  intros Hk. destruct (String.eqb k (cache_key pid season week)) eqn:Ek.
  - apply String.eqb_eq in Ek. subst k. congruence.
  - rewrite dict_get_set_neq; [exact Hk|]. intros ->. rewrite String.eqb_refl in Ek. discriminate.
Qed.

Lemma points_for_extends mapping cache fetch n season week v cache' k x :
  points_for mapping cache fetch n season week = (v, cache') ->
  dict_get cache k = Some x -> dict_get cache' k = Some x.
Proof.
  unfold points_for. destruct (dict_get mapping n) as [pid|].
  - destruct (String.eqb pid "").
    + intros H; inversion H; subst; tauto.
    + apply get_player_points_extends.
  - intros H; inversion H; subst; tauto.
Qed.

Lemma add_points_spec total points q :
  add_points total points = inr q -> q = (total + json_points points)%Q.
Proof.
  destruct points; simpl; intros H; inversion H; reflexivity.
Qed.

Lemma add_points_non_numeric total points :
  non_numeric points = true -> add_points total points = inl TypeError.
Proof. destruct points; simpl; try discriminate; reflexivity. Qed.

Lemma score_lineup_extends mapping fetch week lineup cache total cache' r k x :
  score_lineup mapping fetch week lineup cache total = (cache', r) ->
  dict_get cache k = Some x -> dict_get cache' k = Some x.
Proof.
  revert cache total r. induction lineup as [|[slot player] rest IH];
    intros cache total r; simpl.
  - intros H; inversion H; subst; tauto.
  - destruct (points_for mapping cache fetch (name player) SEASON_YEAR week)
      as [points cache1] eqn:Ep.
    intros H Hk. pose proof (points_for_extends _ _ _ _ _ _ _ _ _ _ Ep Hk) as Hk1.
    destruct (add_points total points) as [e|total1].
    + inversion H; subst. exact Hk1.
    + destruct (score_lineup mapping fetch week rest cache1 total1) as [c2 r2] eqn:Er.
      inversion H; subst. exact (IH _ _ _ Er Hk1).
Qed.

Lemma add_points_err total points e : add_points total points = inl e -> e = TypeError.
Proof. destruct points; simpl; intros H; inversion H; reflexivity. Qed.

Lemma get_player_points_cached cache fetch pid season week v cache' :
  get_player_points cache fetch pid season week = (v, cache') ->
  dict_get cache' (cache_key pid season week) = Some v.
Proof.
  unfold get_player_points.
  destruct (dict_get cache (cache_key pid season week)) as [y|] eqn:E;
    intros H; inversion H; subst; [exact E|apply dict_get_set_eq].
Qed.

Lemma string_length_app (a b : string) : String.length (a ++ b) = (String.length a + String.length b)%nat.
Proof. induction a as [|c a IH]; simpl; [reflexivity|now rewrite IH]. Qed.

Lemma string_app_inv_r (a b s : string) : a ++ s = b ++ s -> a = b.
Proof.
  revert b. induction a as [|c a IH]; intros [|c' b] H; simpl in H.
  - reflexivity.
  - apply (f_equal String.length) in H. simpl in H. rewrite string_length_app in H. lia.
  - apply (f_equal String.length) in H. simpl in H. rewrite string_length_app in H. lia.
  - injection H as -> H. f_equal. exact (IH b H).
Qed.

Lemma cache_key_inj pid pid' season week :
  cache_key pid season week = cache_key pid' season week -> pid = pid'.
Proof. unfold cache_key. apply string_app_inv_r. Qed.

Section BadPoints.
Variable mapping : list (string * string).
Variable fetch : Fetch.
Variable week : Z.
Variable pid : string.
Variable v : Json.

(** The value the lookup of [pid] gives from a cache. *)
Definition holds_points (cache : Cache) : Prop :=
  fst (get_player_points cache fetch pid SEASON_YEAR week) = v.

Lemma points_for_holds cache n p cache1 :
  holds_points cache ->
  points_for mapping cache fetch n SEASON_YEAR week = (p, cache1) ->
  holds_points cache1.
Proof.
  unfold holds_points, points_for. intros Hv.
  destruct (dict_get mapping n) as [pid'|].
  2:{ intros H; injection H as _ <-; exact Hv. }
  destruct (String.eqb pid' ""); [intros H; injection H as _ <-; exact Hv|].
  unfold get_player_points in *.
  destruct (dict_get cache (cache_key pid' SEASON_YEAR week)) as [y|] eqn:E';
    intros H; injection H as _ <-; [exact Hv|].
  destruct (String.eqb (cache_key pid SEASON_YEAR week) (cache_key pid' SEASON_YEAR week)) eqn:Ek.
  - apply String.eqb_eq in Ek. pose proof (cache_key_inj _ _ _ _ Ek) as <-.
    rewrite dict_get_set_eq. rewrite E' in Hv. exact Hv.
  - apply String.eqb_neq in Ek. rewrite dict_get_set_neq by exact Ek.
    destruct (dict_get cache (cache_key pid SEASON_YEAR week)); exact Hv.
Qed.

Lemma score_lineup_holds lineup cache total cache' r :
  holds_points cache ->
  score_lineup mapping fetch week lineup cache total = (cache', r) ->
  holds_points cache'.
Proof.
  revert cache total r. induction lineup as [|[slot player] rest IH]; intros cache total r Hv; simpl.
  - intros H; injection H as <- _; exact Hv.
  - destruct (points_for mapping cache fetch (name player) SEASON_YEAR week)
      as [points cache1] eqn:Ep.
    pose proof (points_for_holds _ _ _ _ Hv Ep) as Hv1.
    destruct (add_points total points) as [e|total1].
    + intros H; injection H as <- _. exact Hv1.
    + destruct (score_lineup mapping fetch week rest cache1 total1) as [c2 r2] eqn:Er.
      intros H; injection H as <- _. exact (IH _ _ _ Hv1 Er).
Qed.

Hypothesis pid_nonempty : pid <> "".
Hypothesis v_bad : non_numeric v = true.

Lemma score_lineup_hits_bad lineup slot player cache total :
  In (slot, player) lineup -> dict_get mapping (name player) = Some pid ->
  holds_points cache ->
  exists cache', score_lineup mapping fetch week lineup cache total = (cache', inl TypeError).
Proof.
  intros Hin Hm. revert cache total.
  induction lineup as [|[slot0 player0] rest IH]; intros cache total Hv; [destruct Hin|].
  simpl.
  destruct (points_for mapping cache fetch (name player0) SEASON_YEAR week)
    as [points cache1] eqn:Ep.
  destruct Hin as [Heq|Hin].
  - inversion Heq; subst slot0 player0.
    unfold points_for in Ep. rewrite Hm in Ep.
    rewrite (proj2 (String.eqb_neq pid "") pid_nonempty) in Ep.
    unfold holds_points in Hv. rewrite Ep in Hv. simpl in Hv. subst points.
    rewrite (add_points_non_numeric _ _ v_bad). eexists. reflexivity.
  - destruct (add_points total points) as [e|total1] eqn:Ea.
    + rewrite (add_points_err _ _ _ Ea). eexists. reflexivity.
    + destruct (IH Hin cache1 total1 (points_for_holds _ _ _ _ Hv Ep)) as [c' Hc'].
      rewrite Hc'. eexists. reflexivity.
Qed.

Lemma score_lineup_err lineup cache total cache' e :
  score_lineup mapping fetch week lineup cache total = (cache', inl e) -> e = TypeError.
Proof.
  revert cache total. induction lineup as [|[slot player] rest IH]; intros cache total; simpl.
  - intros H; inversion H.
  - destruct (points_for mapping cache fetch (name player) SEASON_YEAR week)
      as [points cache1] eqn:Ep.
    destruct (add_points total points) as [e'|total1] eqn:Ea.
    + intros H; inversion H; subst. exact (add_points_err _ _ _ Ea).
    + destruct (score_lineup mapping fetch week rest cache1 total1) as [c2 [e2|[sc t2]]] eqn:Er;
        intros H; inversion H; subst. exact (IH _ _ Er).
Qed.

Lemma weekly_scores_hits_bad managers manager lineup slot player cache :
  In (manager, lineup) managers -> In (slot, player) lineup ->
  dict_get mapping (name player) = Some pid ->
  holds_points cache ->
  exists cache', weekly_scores mapping fetch week managers cache = (cache', inl TypeError).
Proof.
  intros Hin Hsl Hm. revert cache.
  induction managers as [|[m0 l0] rest IH]; intros cache Hv; [destruct Hin|].
  simpl.
  destruct (score_lineup mapping fetch week l0 cache 0%Q) as [c1 r] eqn:Es.
  destruct Hin as [Heq|Hin].
  - inversion Heq; subst m0 l0.
    destruct (score_lineup_hits_bad lineup slot player cache 0%Q Hsl Hm Hv) as [c' Hc'].
    rewrite Es in Hc'. inversion Hc'; subst. eexists. reflexivity.
  - destruct r as [e|[sc t]].
    + rewrite (score_lineup_err _ _ _ _ _ Es). eexists. reflexivity.
    + destruct (IH Hin c1 (score_lineup_holds _ _ _ _ _ Hv Es)) as [c' Hc'].
      rewrite Hc'. eexists. reflexivity.
Qed.

End BadPoints.

(** Where a failed scoring run stopped: a lineup player whose cached points
    are not a number. *)
Lemma score_lineup_fail_cached mapping fetch week lineup cache total cache' e :
  score_lineup mapping fetch week lineup cache total = (cache', inl e) ->
  exists slot player pid v,
    In (slot, player) lineup /\ dict_get mapping (name player) = Some pid /\ pid <> "" /\
    dict_get cache' (cache_key pid SEASON_YEAR week) = Some v /\ non_numeric v = true.
Proof.
  revert cache total. induction lineup as [|[slot player] rest IH]; intros cache total; simpl.
  - intros H; inversion H.
  - destruct (points_for mapping cache fetch (name player) SEASON_YEAR week)
      as [points cache1] eqn:Ep.
    destruct (add_points total points) as [e'|total1] eqn:Ea.
    + intros H; inversion H; subst.
      unfold points_for in Ep.
      destruct (dict_get mapping (name player)) as [pid|] eqn:Hm;
        [|inversion Ep; subst; discriminate].
      destruct (String.eqb pid "") eqn:Hp; [inversion Ep; subst; discriminate|].
      exists slot, player, pid, points. split; [left; reflexivity|].
      split; [exact Hm|]. split; [apply String.eqb_neq; exact Hp|].
      split; [exact (get_player_points_cached _ _ _ _ _ _ _ Ep)|].
      destruct points; try discriminate; reflexivity.
    + destruct (score_lineup mapping fetch week rest cache1 total1) as [c2 [e2|[sc t2]]] eqn:Er;
        intros H; inversion H; subst.
      destruct (IH _ _ Er) as (sl & p & pid & v & Hin & Hrest).
      exists sl, p, pid, v. split; [right; exact Hin|exact Hrest].
Qed.

Lemma weekly_scores_fail_cached mapping fetch week managers cache cache' e :
  weekly_scores mapping fetch week managers cache = (cache', inl e) ->
  exists manager lineup slot player pid v,
    In (manager, lineup) managers /\ In (slot, player) lineup /\
    dict_get mapping (name player) = Some pid /\ pid <> "" /\
    dict_get cache' (cache_key pid SEASON_YEAR week) = Some v /\ non_numeric v = true.
Proof.
  revert cache. induction managers as [|[m0 l0] rest IH]; intros cache; simpl.
  - intros H; inversion H.
  - destruct (score_lineup mapping fetch week l0 cache 0%Q) as [c1 [e1|[sc t]]] eqn:Es.
    + intros H; inversion H; subst.
      destruct (score_lineup_fail_cached _ _ _ _ _ _ _ _ Es) as (sl & p & pid & v & Hin & Hrest).
      exists m0, l0, sl, p, pid, v. split; [left; reflexivity|]. split; [exact Hin|exact Hrest].
    + destruct (weekly_scores mapping fetch week rest c1) as [c2 [e2|tots]] eqn:Ew;
        intros H; inversion H; subst.
      destruct (IH _ Ew) as (m & l & sl & p & pid & v & Hm & Hrest).
      exists m, l, sl, p, pid, v. split; [right; exact Hm|exact Hrest].
Qed.

Lemma dict_get_set_other {A} (d : list (string * A)) k v k' x :
  dict_get d k = None -> dict_get d k' = Some x -> dict_get (dict_set d k v) k' = Some x.
Proof.
  intros Hn Hk. rewrite dict_get_set_neq; [exact Hk|]. intros ->. congruence.
Qed.

(** X5 ([get_player_points], lines 290-304): a looked-up value is cached
    under its key, so asking again returns the same value and the same cache
    whatever the API would answer now. *)
Theorem X5_get_player_points_memoised cache fetch fetch' pid season week v cache' :
  get_player_points cache fetch pid season week = (v, cache') ->
  get_player_points cache' fetch' pid season week = (v, cache').
Proof.
  unfold get_player_points.
  destruct (dict_get cache (cache_key pid season week)) as [y|] eqn:E;
    intros H; inversion H; subst.
  - rewrite E. reflexivity.
  - rewrite dict_get_set_eq. reflexivity.
Qed.

Lemma X5_get_player_points_memoised_witness :
  get_player_points [] timeout_fetch "999" 2025 3 =
    (JNum 0, [("999_2025_3", JNum 0)]) /\
  get_player_points [("999_2025_3", JNum 0)]
    (fun _ => HttpResp 200 (Some (JObj [("fantasy_points", JNum 21)]))) "999" 2025 3 =
    (JNum 0, [("999_2025_3", JNum 0)]).
Proof.
  split; [vm_compute; reflexivity|].
  apply (X5_get_player_points_memoised [] timeout_fetch). vm_compute. reflexivity.
Defined.

(** X6 ([get_player_points], lines 297-303): an uncached lookup that fails
    (exception, 4xx/5xx, no JSON, no ["fantasy_points"]) gives 0 and stores
    0 in the cache; from any later cache that keeps the entries of that one,
    every lookup of that player and week returns 0 without a request, even
    once the API answers. *)
Theorem X6_failed_lookup_pinned_to_zero cache fetch pid season week v cache' :
  dict_get cache (cache_key pid season week) = None ->
  is_lookup_failure (fetch (player_url pid season week)) = true ->
  get_player_points cache fetch pid season week = (v, cache') ->
  v = JNum 0 /\
  forall cache'' fetch',
    (forall k x, dict_get cache' k = Some x -> dict_get cache'' k = Some x) ->
    get_player_points cache'' fetch' pid season week = (JNum 0, cache'').
Proof.
  intros Hnone Hfail. unfold get_player_points. rewrite Hnone.
  intros H. inversion H; subst. rewrite (failure_points_zero _ Hfail).
  split; [reflexivity|].
  intros cache'' fetch' Hext.
  rewrite (Hext _ _ (dict_get_set_eq _ _ _)). reflexivity.
Qed.

Lemma X6_failed_lookup_pinned_to_zero_witness :
  get_player_points [] (fun _ => HttpResp 503 None) "999" 2025 3 =
    (JNum 0, [("999_2025_3", JNum 0)]) /\
  get_player_points (dict_set [("999_2025_3", JNum 0)] "1_2025_3" (JNum 12))
    (fun _ => HttpResp 200 (Some (JObj [("fantasy_points", JNum 21)]))) "999" 2025 3 =
    (JNum 0, dict_set [("999_2025_3", JNum 0)] "1_2025_3" (JNum 12)).
Proof.
  assert (H : get_player_points [] (fun _ => HttpResp 503 None) "999" 2025 3 =
                (JNum 0, [("999_2025_3", JNum 0)])) by (vm_compute; reflexivity).
  split; [exact H|].
  apply (X6_failed_lookup_pinned_to_zero [] (fun _ => HttpResp 503 None) "999" 2025 3
           (JNum 0) [("999_2025_3", JNum 0)]).
  - vm_compute. reflexivity.
  - vm_compute. reflexivity.
  - exact H.
  - intros k x Hk. apply dict_get_set_other; [vm_compute; reflexivity|exact Hk].
Defined.

(** X7 (weekly leaderboard, lines 306-320): scoring all lineups, whether it
    completes or raises, never drops or changes an entry already in the
    score cache. *)
Theorem X7_weekly_scores_keep_cache mapping fetch week managers cache cache' r :
  weekly_scores mapping fetch week managers cache = (cache', r) ->
  forall k x, dict_get cache k = Some x -> dict_get cache' k = Some x.
Proof.
  revert cache r. induction managers as [|[manager lineup_data] rest IH];
    intros cache r; simpl.
  - intros H; inversion H; subst; tauto.
  - destruct (score_lineup mapping fetch week lineup_data cache 0%Q) as [c1 r1] eqn:Es.
    intros H k x Hk. pose proof (score_lineup_extends _ _ _ _ _ _ _ _ _ _ Es Hk) as Hk1.
    destruct r1 as [e|[sc t]].
    + inversion H; subst. exact Hk1.
    + destruct (weekly_scores mapping fetch week rest c1) as [c2 r2] eqn:Ew.
      inversion H; subst. exact (IH _ _ Ew k x Hk1).
Qed.

Lemma X7_weekly_scores_keep_cache_witness :
  weekly_scores bob_mapping (fun _ => HttpResp 200 (Some (JObj [("fantasy_points", JNull)]))) 3
    [("Danny", [("QB", mkPlayer "Bob Smith" "QB" "KC" "BUF" 7000 1800)])]
    [("1_2025_3", JNum 12)] =
    ([("1_2025_3", JNum 12); ("999_2025_3", JNull)], inl TypeError) /\
  dict_get [("1_2025_3", JNum 12); ("999_2025_3", JNull)] "1_2025_3" = Some (JNum 12).
Proof.
  assert (H : weekly_scores bob_mapping
                (fun _ => HttpResp 200 (Some (JObj [("fantasy_points", JNull)]))) 3
                [("Danny", [("QB", mkPlayer "Bob Smith" "QB" "KC" "BUF" 7000 1800)])]
                [("1_2025_3", JNum 12)] =
              ([("1_2025_3", JNum 12); ("999_2025_3", JNull)], inl TypeError))
    by (vm_compute; reflexivity).
  split; [exact H|].
  exact (X7_weekly_scores_keep_cache _ _ _ _ _ _ _ H "1_2025_3" (JNum 12) eq_refl).
Defined.



(** X9 (weekly leaderboard, lines 306-320): the weekly table has one total
    per manager of [leaderboard[current_week_key]], in the file's order. *)
Theorem X9_weekly_scores_one_total_per_manager mapping fetch week managers cache totals cache' :
  weekly_scores mapping fetch week managers cache = (cache', inr totals) ->
  map fst totals = map fst managers.
Proof.
  revert cache totals. induction managers as [|[manager lineup_data] rest IH];
    intros cache totals; simpl.
  - intros H; inversion H; subst; reflexivity.
  - destruct (score_lineup mapping fetch week lineup_data cache 0%Q)
      as [c1 [e|[sc t]]] eqn:Es; [intros H; inversion H|].
    destruct (weekly_scores mapping fetch week rest c1) as [c2 [e|tots]] eqn:Ew;
      intros H; inversion H; subst. simpl. f_equal. exact (IH _ _ Ew).
Qed.

Lemma X9_weekly_scores_one_total_per_manager_witness :
  let managers := [("Danny", [("QB", mkPlayer "Bob Smith" "QB" "KC" "BUF" 7000 1800)]);
                   ("AJ", ([] : Lineup))] in
  weekly_scores bob_mapping timeout_fetch 3 managers [] =
    ([("999_2025_3", JNum 0)], inr [("Danny", 0%Q); ("AJ", 0%Q)]) /\
  map fst [("Danny", 0%Q); ("AJ", 0%Q)] = map fst managers.
Proof.
  intros managers.
  assert (H : weekly_scores bob_mapping timeout_fetch 3 managers [] =
    ([("999_2025_3", JNum 0)], inr [("Danny", 0%Q); ("AJ", 0%Q)])) by (vm_compute; reflexivity).
  split; [exact H|]. exact (X9_weekly_scores_one_total_per_manager _ _ _ _ _ _ _ H).
Defined.

(** X10 ([score_lineup] with line 315): a lineup none of whose players has
    a (non-empty) Sleeper id makes no request: every slot scores 0, the
    total is unchanged and the cache is untouched, whatever the API. *)
Theorem X10_unmapped_lineup_no_request mapping fetch week lineup cache total :
  (forall slot p, In (slot, p) lineup ->
     match dict_get mapping (name p) with Some pid => pid = "" | None => True end) ->
  exists total', (total' == total)%Q /\
    score_lineup mapping fetch week lineup cache total =
      (cache, inr (map (fun sp => (fst sp, JNum 0)) lineup, total')).
Proof.
  revert total. induction lineup as [|[slot player] rest IH]; intros total Hun; simpl.
  - exists total. split; [reflexivity|reflexivity].
  - assert (Ep : points_for mapping cache fetch (name player) SEASON_YEAR week = (JNum 0, cache)).
    { unfold points_for. specialize (Hun slot player (or_introl eq_refl)).
      destruct (dict_get mapping (name player)) as [pid|]; [|reflexivity].
      subst pid. reflexivity. }
    rewrite Ep. simpl.
    destruct (IH (total + 0)%Q) as [t' [Ht Hs]].
    { intros sl p Hp. exact (Hun sl p (or_intror Hp)). }
    rewrite Hs. simpl. exists t'. split; [rewrite Ht; ring|reflexivity].
Qed.

Lemma X10_unmapped_lineup_no_request_witness :
  (forall slot p, In (slot, p) [("QB", mkPlayer "Al Bo" "QB" "KC" "BUF" 9000 2010)] ->
     match dict_get bob_mapping (name p) with Some pid => pid = "" | None => True end) /\
  exists total', (total' == 5)%Q /\
    score_lineup bob_mapping timeout_fetch 3 [("QB", mkPlayer "Al Bo" "QB" "KC" "BUF" 9000 2010)]
      [] 5 = ([], inr ([("QB", JNum 0)], total')).
Proof.
  assert (H : forall slot p, In (slot, p) [("QB", mkPlayer "Al Bo" "QB" "KC" "BUF" 9000 2010)] ->
     match dict_get bob_mapping (name p) with Some pid => pid = "" | None => True end).
  { intros slot p [Hp|[]]. inversion Hp; subst. exact I. }
  split; [exact H|].
  exact (X10_unmapped_lineup_no_request bob_mapping timeout_fetch 3 _ [] 5 H).
Defined.



(** ** The lineup builder *)

Lemma filter_isin_In sel xs pool p :
  In p (filter_isin sel xs pool) <-> In p pool /\ (xs = [] \/ In (sel p) xs).
Proof.
  destruct xs as [|x xs]; cbv beta iota delta [filter_isin].
  - intuition discriminate.
  - rewrite filter_In, str_mem_In. intuition discriminate.
Qed.

Lemma slot_pool_In df f pos p :
  In p (slot_pool df f pos) <->
  In p df /\ slot_eligible pos p /\
  (f_positions f = [] \/ In (position p) (f_positions f)) /\
  (f_teams f = [] \/ In (team p) (f_teams f)) /\
  (f_opponents f = [] \/ In (opponent p) (f_opponents f)).
Proof.
  unfold slot_pool, slot_eligible. rewrite !filter_isin_In.
  destruct (String.eqb pos "FLEX").
  - rewrite filter_In, str_mem_In. tauto.
  - rewrite filter_In, String.eqb_eq. tauto.
Qed.

Lemma exclude_used_In lineup label used pool p :
  In p (exclude_used lineup label used pool) <->
  In p pool /\ (In (name p) used -> in_current lineup label (name p) = true).
Proof.
  unfold exclude_used. rewrite filter_In. split.
  - intros [Hp Hn]. split; [exact Hp|]. intros Hu.
    destruct (in_current lineup label (name p)) eqn:E; [reflexivity|].
    exfalso. apply negb_true_iff in Hn. apply Bool.not_true_iff_false in Hn.
    apply Hn. apply str_mem_In. apply filter_In. rewrite E. split; [exact Hu|reflexivity].
  - intros [Hp Hu]. split; [exact Hp|]. apply negb_true_iff.
    apply Bool.not_true_iff_false. intros Hm. apply str_mem_In, filter_In in Hm.
    destruct Hm as [Hm Hc]. rewrite (Hu Hm) in Hc. discriminate Hc.
Qed.

Lemma index_of_nth x l d :
  In x l -> exists i, index_of x l = Some i /\ nth i l d = x.
Proof.
  induction l as [|y l IH]; simpl; [tauto|]. intros Hx.
  destruct (String.eqb x y) eqn:E.
  - apply String.eqb_eq in E. subst. exists O. split; reflexivity.
  - apply String.eqb_neq in E. destruct Hx as [->|Hx]; [congruence|].
    destruct (IH Hx) as [i [Hi Hn]]. exists (S i). rewrite Hi. split; [reflexivity|exact Hn].
Qed.

Lemma first_row_In df n p : first_row df n = inr p -> In p df /\ name p = n.
Proof.
  unfold first_row. destruct (find (fun p => String.eqb (name p) n) df) eqn:E;
    intros H; inversion H; subst.
  apply find_some in E. destruct E as [Hin He]. apply String.eqb_eq in He. tauto.
Qed.

Lemma dict_set_keys {A} (d : list (string * A)) k v x :
  In x (map fst (dict_set d k v)) <-> x = k \/ In x (map fst d).
Proof.
  induction d as [|[k' v'] d IH]; simpl; [intuition congruence|].
  destruct (String.eqb k k') eqn:E; simpl.
  - apply String.eqb_eq in E. subst. intuition congruence.
  - rewrite IH. tauto.
Qed.

Lemma dict_set_NoDup {A} (d : list (string * A)) k v :
  NoDup (map fst d) -> NoDup (map fst (dict_set d k v)).
Proof.
  induction d as [|[k' v'] d IH]; simpl; intros Hnd; [constructor; [tauto|constructor]|].
  inversion Hnd as [|? ? Hn Hnd']; subst.
  destruct (String.eqb k k') eqn:E; simpl; constructor; auto.
  rewrite dict_set_keys. apply String.eqb_neq in E. intuition.
Qed.

Lemma dict_get_notin_None {A} (l : list (string * A)) k :
  ~ In k (map fst l) -> dict_get l k = None.
Proof.
  induction l as [|[k' v] l IH]; simpl; [reflexivity|]. intros Hn.
  destruct (String.eqb k k') eqn:E; [apply String.eqb_eq in E; subst; tauto|].
  apply IH. tauto.
Qed.

Lemma dict_mem_false {A} (l : list (string * A)) k :
  dict_mem l k = false -> dict_get l k = None.
Proof. unfold dict_mem. destruct (dict_get l k); [discriminate|reflexivity]. Qed.

(** One slot of the loop: keys stay unique and within the old keys and the
    slot's label, other slots keep their rows, and the slot ends empty or
    holding a row of [df]. *)
Lemma slot_step_spec df f w label pos lineup used l1 u1 opts :
  NoDup (map fst lineup) ->
  slot_step df f w label pos lineup used = inr (l1, u1, opts) ->
  NoDup (map fst l1) /\
  (forall k, In k (map fst l1) -> k = label \/ In k (map fst lineup)) /\
  (forall k, k <> label -> dict_get l1 k = dict_get lineup k) /\
  (dict_get l1 label = None \/
   exists p, dict_get l1 label = Some p /\ In p df /\ first_row df (name p) = inr p).
Proof.
  intros Hnd. unfold slot_step. cbv zeta.
  match goal with |- context[negb (String.eqb ?c "--")] =>
    destruct (negb (String.eqb c "--")) end.
  - match goal with |- context[first_row df ?n] =>
      destruct (first_row df n) as [e|row] eqn:Er end; simpl; [discriminate|].
    intros H. inversion H; subst. destruct (first_row_In _ _ _ Er) as [Hrow Hn].
    split; [apply dict_set_NoDup; exact Hnd|].
    split; [intros k Hk; apply dict_set_keys in Hk; exact Hk|].
    split; [intros k Hk; apply dict_get_set_neq; exact Hk|].
    right. exists row. split; [apply dict_get_set_eq|]. split; [exact Hrow|].
    rewrite Hn. exact Er.
  - destruct (dict_mem lineup label) eqn:Em; intros H; inversion H; subst.
    + destruct (keys_del_NoDup lineup label Hnd) as [Hnd' Hnin].
      split; [exact Hnd'|].
      split; [intros k Hk; right; exact (keys_del_incl _ _ _ Hk)|].
      split; [intros k Hk; apply dict_get_del_neq; exact Hk|].
      left. apply dict_get_notin_None. exact Hnin.
    + split; [exact Hnd|]. split; [intros k Hk; right; exact Hk|].
      split; [intros k _; reflexivity|]. left. apply dict_mem_false. exact Em.
Qed.

Lemma build_loop_spec df f w sl : forall lineup used lineup' used' log,
  NoDup (map fst lineup) ->
  build_loop df f w sl lineup used = inr (lineup', used', log) ->
  NoDup (map fst lineup') /\
  (forall k, In k (map fst lineup') -> In k (map fst lineup) \/ In k (map fst sl)) /\
  (forall k, ~ In k (map fst sl) -> dict_get lineup' k = dict_get lineup k) /\
  (forall label pos, In (label, pos) sl ->
     dict_get lineup' label = None \/
     exists p, dict_get lineup' label = Some p /\ In p df /\ first_row df (name p) = inr p).
Proof.
  induction sl as [|[label pos] sl IH]; intros lineup used lineup' used' log Hnd; simpl.
  - intros H; inversion H; subst. split; [exact Hnd|]. split; [tauto|].
    split; [reflexivity|]. tauto.
  - destruct (slot_step df f w label pos lineup used) as [e|[[l1 u1] opts]] eqn:Es;
      simpl; [discriminate|].
    destruct (build_loop df f w sl l1 u1) as [e|[[l2 u2] lg]] eqn:Eb; simpl; [discriminate|].
    intros H. inversion H; subst.
    destruct (slot_step_spec _ _ _ _ _ _ _ _ _ _ Hnd Es) as [Hnd1 [Hk1 [Hg1 Hp1]]].
    destruct (IH _ _ _ _ _ Hnd1 Eb) as [Hnd2 [Hk2 [Hg2 Hp2]]].
    split; [exact Hnd2|].
    split.
    { intros k Hk. destruct (Hk2 k Hk) as [Hk'|Hk']; [|right; right; exact Hk'].
      destruct (Hk1 k Hk') as [->|Hk'']; [right; left; reflexivity|left; exact Hk'']. }
    split.
    { intros k Hk. rewrite Hg2 by tauto. apply Hg1. intros ->. apply Hk. left. reflexivity. }
    intros lb ps [Hh|Hin].
    + inversion Hh; subst lb ps.
      destruct (in_dec string_dec label (map fst sl)) as [Hl|Hl].
      * apply in_map_iff in Hl. destruct Hl as [[l' p'] [Hl' Hin']]. simpl in Hl'. subst l'.
        exact (Hp2 _ _ Hin').
      * rewrite (Hg2 label Hl). exact Hp1.
    + exact (Hp2 _ _ Hin).
Qed.

(** X16 (slot loop, lines 215-252): from a lineup with unique slots, the
    loop leaves a lineup with unique slots, each an old slot or one of the
    loop's labels. *)
Theorem X16_build_loop_keys df f w sl lineup used lineup' used' log :
  NoDup (map fst lineup) ->
  build_loop df f w sl lineup used = inr (lineup', used', log) ->
  NoDup (map fst lineup') /\
  forall k, In k (map fst lineup') -> In k (map fst lineup) \/ In k (map fst sl).
Proof.
  intros Hnd H. destruct (build_loop_spec df f w sl _ _ _ _ _ Hnd H) as [H1 [H2 _]].
  split; [exact H1|exact H2].
Qed.

Lemma X16_build_loop_keys_witness :
  NoDup (map fst c1_lineup) /\
  (exists log, build_loop c1_pool no_filters keep_widget slots c1_lineup
                 (initial_used c1_lineup) =
               inr ([("WR1", jo_smithers); ("WR2", jo_smith)], ["Jo Smithers"; "Jo Smith"], log)) /\
  NoDup (map fst [("WR1", jo_smithers); ("WR2", jo_smith)]) /\
  forall k, In k (map fst [("WR1", jo_smithers); ("WR2", jo_smith)]) ->
    In k (map fst c1_lineup) \/ In k (map fst slots).
Proof.
  assert (Hnd : NoDup (map fst c1_lineup)).
  { simpl. constructor; [simpl; intuition discriminate|]. constructor; [tauto|constructor]. }
  destruct (build_loop c1_pool no_filters keep_widget slots c1_lineup (initial_used c1_lineup))
    as [e|[[l' u'] log]] eqn:H; [vm_compute in H; discriminate H|].
  assert (Hl : l' = [("WR1", jo_smithers); ("WR2", jo_smith)] /\ u' = ["Jo Smithers"; "Jo Smith"])
    by (vm_compute in H; inversion H; split; reflexivity).
  destruct Hl; subst l' u'.
  split; [exact Hnd|]. split; [exists log; reflexivity|].
  exact (X16_build_loop_keys _ _ _ _ _ _ _ _ _ Hnd H).
Defined.

(** X17 (slot loop, lines 244-252 with 248): after the loop, every slot it
    went through is empty or holds a row of the week's [df], and that row
    is [df]'s first row of its name: a chosen option is turned back into
    the first row of that name, never into a row kept from an earlier run. *)
Theorem X17_build_loop_rows_from_df df f w sl lineup used lineup' used' log :
  NoDup (map fst lineup) ->
  build_loop df f w sl lineup used = inr (lineup', used', log) ->
  forall label pos p, In (label, pos) sl -> dict_get lineup' label = Some p ->
    In p df /\ first_row df (name p) = inr p.
Proof.
  intros Hnd H label pos p Hin Hg.
  destruct (build_loop_spec df f w sl _ _ _ _ _ Hnd H) as [_ [_ [_ Hp]]].
  destruct (Hp label pos Hin) as [Hn|[p' [Hs [Hdf Hfr]]]]; [congruence|].
  rewrite Hg in Hs. inversion Hs; subst. split; assumption.
Qed.

(** Two rows named ["Al Bo"]; the in-progress lineup holds the second. *)
Definition qb60_dup : Player := mkPlayer "Al Bo" "QB" "KC" "BUF" 52000 1500.

Lemma X17_build_loop_rows_from_df_witness :
  NoDup (map fst [("QB", qb60_dup)]) /\
  (exists log, build_loop (qb60 :: qb60_dup :: c1_pool) no_filters keep_widget slots
                 [("QB", qb60_dup)] ["Al Bo"] = inr ([("QB", qb60)], ["Al Bo"], log)) /\
  (forall label pos p, In (label, pos) slots -> dict_get [("QB", qb60)] label = Some p ->
     In p (qb60 :: qb60_dup :: c1_pool) /\ first_row (qb60 :: qb60_dup :: c1_pool) (name p) = inr p).
Proof.
  assert (Hnd : NoDup (map fst [("QB", qb60_dup)])) by (constructor; [tauto|constructor]).
  destruct (build_loop (qb60 :: qb60_dup :: c1_pool) no_filters keep_widget slots
              [("QB", qb60_dup)] ["Al Bo"])
    as [e|[[l' u'] log]] eqn:H; [vm_compute in H; discriminate H|].
  assert (Hl : l' = [("QB", qb60)] /\ u' = ["Al Bo"])
    by (vm_compute in H; inversion H; split; reflexivity).
  destruct Hl; subst l' u'.
  split; [exact Hnd|]. split; [exists log; reflexivity|].
  exact (X17_build_loop_rows_from_df _ _ _ _ _ _ _ _ _ Hnd H).
Defined.

(** ** The season table and the season upload *)

Lemma season_ge_total a b : season_ge a b = true \/ season_ge b a = true.
Proof.
  unfold season_ge.
  destruct (Z.lt_trichotomy (placement_points (snd a)) (placement_points (snd b)))
    as [Hl|[He|Hg]].
  - right. rewrite (proj2 (Z.ltb_lt _ _) Hl). reflexivity.
  - rewrite He, Z.ltb_irrefl, Z.eqb_refl. simpl.
    destruct (Qlt_le_dec (total_points (snd a)) (total_points (snd b))) as [Hq|Hq].
    + right. apply Qle_bool_iff. apply Qlt_le_weak. exact Hq.
    + left. apply Qle_bool_iff. exact Hq.
  - left. rewrite (proj2 (Z.ltb_lt _ _) Hg). reflexivity.
Qed.

Lemma season_ge_trans a b c :
  season_ge a b = true -> season_ge b c = true -> season_ge a c = true.
Proof.
  unfold season_ge. rewrite !orb_true_iff, !andb_true_iff, !Z.ltb_lt, !Z.eqb_eq,
    !Qle_bool_iff.
  intros [H1|[H1 H1']] [H2|[H2 H2']].
  - left. lia.
  - left. lia.
  - left. lia.
  - right. split; [lia|]. eapply Qle_trans; eassumption.
Qed.

Lemma insert_season_perm x l : Permutation (insert_season x l) (x :: l).
Proof.
  induction l as [|y l IH]; simpl; [reflexivity|].
  destruct (season_ge x y); [reflexivity|].
  rewrite IH. apply perm_swap.
Qed.

Lemma insert_season_sorted x l :
  StronglySorted (fun a b => season_ge a b = true) l ->
  StronglySorted (fun a b => season_ge a b = true) (insert_season x l).
Proof.
  induction 1 as [|y l Hs IH Hf]; simpl.
  - repeat constructor.
  - destruct (season_ge x y) eqn:E.
    + constructor; [constructor; assumption|].
      constructor; [exact E|]. eapply Forall_impl; [|exact Hf].
      intros a Ha. exact (season_ge_trans _ _ _ E Ha).
    + constructor; [exact IH|]. apply Forall_forall. intros a Ha.
      apply (Permutation_in _ (insert_season_perm x l)) in Ha. destruct Ha as [<-|Ha].
      * destruct (season_ge_total x y) as [H|H]; [congruence|exact H].
      * rewrite Forall_forall in Hf. exact (Hf a Ha).
Qed.

Lemma missing_managers_obj fs ms :
  missing_managers (JObj fs) ms = ret (filter (fun m => negb (dict_mem fs m)) ms).
Proof.
  induction ms as [|m ms IH]; simpl; [reflexivity|]. rewrite IH. simpl.
  destruct (dict_mem fs m); reflexivity.
Qed.

Lemma missing_managers_arr xs ms :
  missing_managers (JArr xs) ms =
  ret (filter (fun m => negb (existsb (fun x => match x with JStr s => String.eqb s m
                                                             | _ => false end) xs)) ms).
Proof.
  induction ms as [|m ms IH]; simpl; [reflexivity|]. rewrite IH. simpl.
  destruct (existsb _ xs); reflexivity.
Qed.

Lemma missing_managers_str str ms :
  missing_managers (JStr str) ms = ret (filter (fun m => negb (str_contains str m)) ms).
Proof.
  induction ms as [|m ms IH]; simpl; [reflexivity|]. rewrite IH. simpl.
  destruct (str_contains str m); reflexivity.
Qed.

Lemma filter_negb_nil {X} (p : X -> bool) l :
  (forall x, In x l -> p x = true) -> filter (fun x => negb (p x)) l = [].
Proof.
  induction l as [|x l IH]; simpl; intros H; [reflexivity|].
  rewrite (H x (or_introl eq_refl)). simpl. apply IH. intros y Hy. exact (H y (or_intror Hy)).
Qed.

Lemma filter_negb_forallb {X} (p : X -> bool) l :
  forallb p l = false -> filter (fun x => negb (p x)) l <> [].
Proof.
  induction l as [|x l IH]; simpl; [discriminate|].
  destruct (p x); simpl; [exact IH|discriminate].
Qed.

Lemma forallb_filter_nil {X} (p : X -> bool) l :
  forallb p l = true -> filter (fun x => negb (p x)) l = [].
Proof.
  intros H. apply filter_negb_nil. intros x Hx. rewrite forallb_forall in H. exact (H x Hx).
Qed.




(** X20 (season JSON upload, lines 133-146): for an uploaded JSON object,
    the season file is replaced exactly when every name of [MANAGERS],
    ["-"] included, is a key, and success is reported first; otherwise
    the file is left as it was and the only message is the warning listing
    the missing names in [MANAGERS] order. *)
Theorem X20_dict_upload_needs_every_manager file fs :
  if forallb (dict_mem fs) MANAGERS
  then fst (season_upload file (Some (JObj fs))) = Some (JObj fs) /\
       hd_error (snd (season_upload file (Some (JObj fs)))) = Some USuccess
  else season_upload file (Some (JObj fs)) =
       (file, [UWarning (filter (fun m => negb (dict_mem fs m)) MANAGERS)]).
Proof.
  unfold season_upload. rewrite missing_managers_obj. unfold ret.
  destruct (forallb (dict_mem fs) MANAGERS) eqn:E.
  - rewrite (forallb_filter_nil _ _ E).
    destruct (top3 (JObj fs)) as [[?|?]|]; split; reflexivity.
  - pose proof (filter_negb_forallb _ _ E) as Hne.
    destruct (filter (fun m => negb (dict_mem fs m)) MANAGERS) as [|m ms];
      [congruence|reflexivity].
Qed.

(** X21 (season JSON upload, lines 133-157): a JSON list holding the name
    of every manager passes the [m not in uploaded_json] check, so it is
    written to the season file and reported as updated, and then
    [uploaded_json.items()] fails and "Failed to load JSON" is shown. *)
Theorem X21_list_upload_saved_then_failed file xs :
  (forall m, In m MANAGERS -> In (JStr m) xs) ->
  season_upload file (Some (JArr xs)) = (Some (JArr xs), [USuccess; UFailed]).
Proof.
  intros H. unfold season_upload. rewrite missing_managers_arr. unfold ret.
  rewrite filter_negb_nil; [reflexivity|].
  intros m Hm. apply existsb_exists. exists (JStr m).
  split; [exact (H m Hm)|apply String.eqb_refl].
Qed.

Lemma X21_list_upload_saved_then_failed_witness :
  (forall m, In m MANAGERS ->
     In (JStr m) [JStr "-"; JStr "Mariah"; JStr "David"; JStr "Amos"; JStr "AJ"; JStr "Danny"]) /\
  season_upload None (Some (JArr [JStr "-"; JStr "Mariah"; JStr "David"; JStr "Amos";
                                  JStr "AJ"; JStr "Danny"])) =
    (Some (JArr [JStr "-"; JStr "Mariah"; JStr "David"; JStr "Amos"; JStr "AJ"; JStr "Danny"]),
     [USuccess; UFailed]).
Proof.
  assert (H : forall m, In m MANAGERS ->
     In (JStr m) [JStr "-"; JStr "Mariah"; JStr "David"; JStr "Amos"; JStr "AJ"; JStr "Danny"]).
  { intros m Hm. simpl in Hm. simpl. intuition congruence. }
  split; [exact H|]. exact (X21_list_upload_saved_then_failed None _ H).
Defined.

(** X22 (season JSON upload, lines 133-157): a JSON string in which every
    manager's name occurs as a substring also passes the check ([in] on a
    string is the substring test): it is written to the season file, then
    [.items()] fails. *)
Theorem X22_string_upload_saved_then_failed file str :
  (forall m, In m MANAGERS -> str_contains str m = true) ->
  season_upload file (Some (JStr str)) = (Some (JStr str), [USuccess; UFailed]).
Proof.
  intros H. unfold season_upload. rewrite missing_managers_str. unfold ret.
  rewrite filter_negb_nil; [reflexivity|exact H].
Qed.

Lemma X22_string_upload_saved_then_failed_witness :
  (forall m, In m MANAGERS -> str_contains "-MariahDavidAmosAJDanny" m = true) /\
  season_upload None (Some (JStr "-MariahDavidAmosAJDanny")) =
    (Some (JStr "-MariahDavidAmosAJDanny"), [USuccess; UFailed]).
Proof.
  assert (H : forall m, In m MANAGERS -> str_contains "-MariahDavidAmosAJDanny" m = true).
  { intros m Hm. simpl in Hm.
    destruct Hm as [<-|[<-|[<-|[<-|[<-|[<-|[]]]]]]]; vm_compute; reflexivity. }
  split; [exact H|]. exact (X22_string_upload_saved_then_failed None _ H).
Defined.

(** ** The player pool *)

(** X25 ([load_csv], lines 55-62): a successful load gives exactly one
    row per CSV row, in the file's order, each carrying its raw row's team,
    opponent and salary cells unchanged. *)
Theorem X25_load_csv_row_per_player raw rows :
  load_csv raw = inr rows ->
  length rows = length (raw_rows raw) /\
  Forall2 (fun row r =>
             cell_of (map norm_header (raw_columns raw)) row "team" = Some (r_team r) /\
             cell_of (map norm_header (raw_columns raw)) row "opponent" = Some (r_opponent r) /\
             cell_of (map norm_header (raw_columns raw)) row "salary" = Some (r_salary r))
          (raw_rows raw) rows.
Proof.
  intros H. pose proof (load_csv_rows raw rows H) as Hr.
  split; [symmetry; exact (Forall2_length Hr)|].
  eapply Forall2_impl; [|exact Hr]. intros row r [_ Hc]. exact Hc.
Qed.

(** Two rows, the second one short of its fppg cell, which [read_csv]
    fills with NaN. *)
Definition x25_raw : RawTable :=
  mkRawTable [" First Name"; "Last Name "; "Position"; "Team"; "Opponent"; "Salary"; "FPPG"]
    [[CStr "Al"; CStr "Bo"; CStr "DEF"; CStr "KC"; CStr "BUF"; CInt 4500; CFloat (Fin (23 # 2))];
     [CStr "Cy"; CStr "Di"; CStr "WR"; CStr "NYJ"; CStr "MIA"; CInt 5000]].

Definition x25_rows : list Row :=
  [mkRow (CStr "Al Bo") (CStr "D") (CStr "KC") (CStr "BUF") (CInt 4500) (FHund 1150);
   mkRow (CStr "Cy Di") (CStr "WR") (CStr "NYJ") (CStr "MIA") (CInt 5000) (FCell (CFloat NaN))].

Lemma X25_load_csv_row_per_player_witness :
  load_csv x25_raw = inr x25_rows /\
  length x25_rows = length (raw_rows x25_raw) /\
  Forall2 (fun row r =>
             cell_of (map norm_header (raw_columns x25_raw)) row "team" = Some (r_team r) /\
             cell_of (map norm_header (raw_columns x25_raw)) row "opponent" = Some (r_opponent r) /\
             cell_of (map norm_header (raw_columns x25_raw)) row "salary" = Some (r_salary r))
          (raw_rows x25_raw) x25_rows.
Proof.
  assert (H : load_csv x25_raw = inr x25_rows) by (vm_compute; reflexivity).
  split; [exact H|]. exact (X25_load_csv_row_per_player _ _ H).
Defined.
